(** * ha-wall-clock-card-pirateweather: the Pirate Weather adapter and the
      card's readiness barrier

    Shallow embedding of
    - [src/weather-providers/pirateweather-provider.ts]
      (module [PirateWeatherProvider]),
    - the second copy of the same adapter, which multiplies and maps but does
      not round (module [Part000.PirateWeatherProvider]),
    - the card element [WallClockCard] with its [initConnectCallbackAsync]
      (module [Part000.WallClockCard]).
    The methods the two copies of the adapter spell alike are in module
    [Adapter].

    Conventions of the embedding.
    - A JavaScript [number] is a double.  The finite ones are modelled as
      exact rationals ([Q]): the rounding error of [*] and [/] is not
      represented, [Math.round] and [%] are exact as in the language.  The
      constants of the source (100, 10, 1000, 22.5, 16) are dyadic.  [NaN]
      and the infinities, which no JSON body holds, are left out.
    - [undefined] is [None].
    - An object literal used as a table is a [gmap] of its own properties
      together with the members it inherits from [Object.prototype]: the
      expression [table[key]] walks the prototype chain.
    - An [async] function is the tree of the requests it awaits, or, for the
      card, a machine that moves when a promise settles and when the
      scheduler gives it a turn. *)

From Stdlib Require Import QArith Qround Qabs ZArith Lia Lqa.
From stdpp Require Import gmap strings list functions pretty.

Open Scope string_scope.

(** ** JavaScript values *)
Module JS.

Definition number : Type := Q.

(** [ToBoolean]: what [!x], [x || y] and [x ? a : b] test. *)
Class Truthy (A : Type) := truthy : A -> bool.

#[export] Instance number_truthy : Truthy number :=
  fun n => negb (Qeq_bool n 0).
#[export] Instance string_truthy : Truthy string :=
  fun s => negb (String.eqb s "").
#[export] Instance bool_truthy : Truthy bool := fun b => b.
#[export] Instance option_truthy {A} `{Truthy A} : Truthy (option A) :=
  fun o => match o with Some a => truthy a | None => false end.

(** [a || b] on values of one type. *)
Definition or {A} `{Truthy A} (a b : A) : A := if truthy a then a else b.

(** [o || d] where [o] may be [undefined]. *)
Definition or_default {A} `{Truthy A} (o : option A) (d : A) : A :=
  match o with
  | Some a => if truthy a then a else d
  | None => d
  end.

(** [Math.round]: the nearest integer, ties towards +infinity. *)
Definition Math_round (x : number) : number :=
  inject_Z (Qfloor (x + (1 # 2))%Q).

(** [a % b] for a finite [a] and a non-zero [b]: the remainder has the sign
    of the dividend. *)
Definition rem (a b : number) : number :=
  let q := (a / b)%Q in
  (a - b * inject_Z (Z.quot (Qnum q) (Z.pos (Qden q))))%Q.

Definition isInteger (x : number) : bool :=
  Qeq_bool x (inject_Z (Qfloor x)).

(** [arr[i]] for a number [i]: an element when [i] is an index of the
    array, [undefined] otherwise (negative, fractional, past the end). *)
Definition index {A} (arr : list A) (i : number) : option A :=
  if Qle_bool 0 i && isInteger i then arr !! Z.to_nat (Qfloor i) else None.

(** Names every object literal inherits from [Object.prototype]
    (ECMA-262, sections 20.1.3 and B.2.2): [table[name]] is a function, or
    the prototype object itself for [__proto__], and is truthy. *)
Definition Object_prototype : list string :=
  [ "constructor"; "hasOwnProperty"; "isPrototypeOf";
    "propertyIsEnumerable"; "toLocaleString"; "toString"; "valueOf";
    "__proto__"; "__defineGetter__"; "__defineSetter__";
    "__lookupGetter__"; "__lookupSetter__" ].

(** What an expression typed [A] by TypeScript evaluates to when it comes
    out of a table: a value of [A], or a member of [Object.prototype]. *)
Inductive value (A : Type) : Type :=
| Val (a : A)
| Builtin (name : string).
Arguments Val {A} a.
Arguments Builtin {A} name.

(** [table[key] || fallback] on an object literal [table]. *)
Definition lookup_or {A} `{Truthy A}
    (table : gmap string A) (key : string) (fallback : A) : value A :=
  match table !! key with
  | Some a => Val (if truthy a then a else fallback)
  | None =>
      if bool_decide (key ∈ Object_prototype) then Builtin key
      else Val fallback
  end.

(** What [throw] carries: an [Error] with its message, or anything else. *)
Inductive Thrown : Type :=
| Error (message : string)
| NotAnError.

End JS.
Export JS.

(** ** Declarations the adapter imports *)

(** Modelled from the spec: the enum [Weather] of [../image-sources], which
    is not among the sources.  Its members are the vocabulary "Clear/Rain/
    Snow/Clouds/Fog/Mist/Wind/Thunderstorm/Extreme/All-unknown", with the
    member [ClearSky] that [src/weather-providers] names.  The values of the
    enum are non-empty strings, so each member is truthy. *)
Inductive Weather : Type :=
| All | Clear | ClearSky | Rain | Snow | Clouds | Fog | Mist | Wind
| Thunderstorm | Extreme.

#[export] Instance Weather_truthy : Truthy Weather := fun _ => true.

(** Modelled from the spec: [WeatherProviderConfig] of [./types]: "apiKey,
    latitude, longitude, units"; a field that is absent is [None]. *)
Record WeatherProviderConfig : Type := {
  apiKey : option string;
  latitude : option number;
  longitude : option number;
  units : option string
}.

(** ** The vendor's schema (declared alike in both copies) *)

Record PirateWeatherCurrently : Type := {
  c_time : number;
  c_summary : string;
  c_icon : string;
  c_temperature : number;
  c_apparentTemperature : number;
  c_humidity : number;
  c_pressure : number;
  c_windSpeed : number;
  c_windGust : option number;
  c_windBearing : number;
  c_cloudCover : number;
  c_uvIndex : number;
  c_visibility : number
}.

Record PirateWeatherDaily : Type := {
  time : number;
  summary : string;
  icon : string;
  temperatureHigh : number;
  temperatureLow : number;
  temperatureMax : number;
  temperatureMin : number;
  apparentTemperatureHigh : number;
  apparentTemperatureLow : number;
  humidity : number;
  pressure : number;
  windSpeed : number;
  windGust : option number;
  windBearing : number;
  cloudCover : number;
  uvIndex : number
}.

Record PirateWeatherDailyBlock : Type := {
  db_summary : string;
  db_icon : string;
  db_data : list PirateWeatherDaily
}.

Record PirateWeatherResponse : Type := {
  r_latitude : number;
  r_longitude : number;
  r_timezone : string;
  currently : PirateWeatherCurrently;
  daily : PirateWeatherDailyBlock
}.

(** A [Date]: its time value, a whole number of milliseconds, or none for
    an invalid date (where [getTime()] gives [NaN]). *)
Record Date : Type := { getTime : option Z }.

(** A number cut to a whole number, towards 0. *)
Definition truncate (x : number) : Z :=
  if Qle_bool 0 x then Qfloor x else Qceiling x.

(** [new Date(ms)] (ECMA-262, TimeClip): the date is invalid when [ms] is
    more than 8.64e15 milliseconds from the epoch either way, and its time
    value is [ms] cut to a whole number of milliseconds otherwise. *)
Definition new_Date (ms : number) : Date :=
  {| getTime :=
       if Qle_bool (Qabs ms) 8640000000000000
       then Some (truncate ms) else None |}.

Record DailyWeather : Type := {
  d_date : Date;
  d_temperatureMax : number;
  d_temperatureMin : number;
  d_condition : string;
  d_conditionUnified : value Weather;
  d_icon : value string;
  d_humidity : number;
  d_pressure : number;
  d_windSpeed : number;
  d_windGust : option number;
  d_windBearing : number;
  d_cloudCover : number;
  d_uvIndex : number
}.

(** ** The network, and [async] functions *)

(** The request [`${baseUrl}/${apiKey}/${latitude},${longitude}?units=${u}`],
    kept as the values the template interpolates. *)
Record Url : Type := {
  url_base : string;
  url_apiKey : option string;
  url_latitude : option number;
  url_longitude : option number;
  url_units : value string
}.

(** What [fetch] resolves to; [json] is what [await response.json()] gives:
    the parsed body, or what the parser throws. *)
Record Response : Type := {
  ok : bool;
  status : N;
  statusText : string;
  json : Thrown + PirateWeatherResponse
}.

(** An [async] function whose only awaited effect is [fetch]: it settles,
    or it issues one request and goes on with what the request settles
    to. *)
Inductive Async (A : Type) : Type :=
| Fulfilled (a : A)
| Rejected (e : Thrown)
| Fetch (url : Url) (k : Thrown + Response -> Async A).
Arguments Fulfilled {A} a.
Arguments Rejected {A} e.
Arguments Fetch {A} url k.

Definition Network : Type := Url -> Thrown + Response.

(** The requests a call issues on a given network, in order, and what the
    returned promise settles to. *)
Fixpoint run {A} (net : Network) (p : Async A) : list Url * (Thrown + A) :=
  match p with
  | Fulfilled a => ([], inr a)
  | Rejected e => ([], inl e)
  | Fetch url k =>
      let '(requests, outcome) := run net (k (net url)) in
      (url :: requests, outcome)
  end.

Definition requests {A} (net : Network) (p : Async A) : list Url :=
  fst (run net p).
Definition settles {A} (net : Network) (p : Async A) : Thrown + A :=
  snd (run net p).

(** ** Methods that read the same in both copies of the adapter *)
Module Adapter.

Definition baseUrl : string := "https://api.pirateweather.net/forecast".

Definition getDefaultConfig : WeatherProviderConfig :=
  {| apiKey := Some ""; latitude := Some 0%Q; longitude := Some 0%Q;
     units := Some "metric" |}.

Definition unitsMap : gmap string string :=
  list_to_map [ ("metric", "si"); ("imperial", "us") ].

Definition mapUnits (units : string) : value string :=
  lookup_or unitsMap units "si".

Definition directions : list string :=
  [ "N"; "NNE"; "NE"; "ENE"; "E"; "ESE"; "SE"; "SSE";
    "S"; "SSW"; "SW"; "WSW"; "W"; "WNW"; "NW"; "NNW" ].

Definition bearingToDirection (bearing : number) : option string :=
  let index := rem (Math_round (bearing / 22.5)%Q) 16%Q in
  JS.index directions index.

Definition formatCondition (summary : string) : string :=
  or summary "Unknown".

Section Fetching.
Context {WeatherData : Type}.
(** [this.transformResponse], with the units the call passes on. *)
Variable transformResponse : PirateWeatherResponse -> string -> WeatherData.

(** The body of the [try] block once [fetch] has settled. *)
Definition tryBlock (config : WeatherProviderConfig)
    (settled : Thrown + Response) : Thrown + WeatherData :=
  match settled with
  | inl error => inl error
  | inr response =>
      if negb (ok response) then
        inl (Error ("Pirate Weather API error: " ++ pretty (status response)
                    ++ " " ++ statusText response))
      else
        match json response with
        | inl error => inl error
        | inr data =>
            inr (transformResponse data (or_default (units config) "metric"))
        end
  end.

(** The [catch] block. *)
Definition catchBlock (error : Thrown) : Thrown :=
  match error with
  | Error message =>
      Error ("Failed to fetch Pirate Weather data: " ++ message)
  | NotAnError => Error "Failed to fetch Pirate Weather data"
  end.

Definition fetchWeatherAsync (config : WeatherProviderConfig)
    : Async WeatherData :=
  if negb (truthy (apiKey config)) then
    Rejected (Error "Pirate Weather API key is required")
  else if negb (truthy (latitude config)) || negb (truthy (longitude config))
  then Rejected (Error "Latitude and longitude are required")
  else
    let pirateUnits := mapUnits (or_default (units config) "metric") in
    let url := {| url_base := baseUrl;
                  url_apiKey := apiKey config;
                  url_latitude := latitude config;
                  url_longitude := longitude config;
                  url_units := pirateUnits |} in
    Fetch url (fun settled =>
      match tryBlock config settled with
      | inr weather => Fulfilled weather
      | inl error => Rejected (catchBlock error)
      end).
End Fetching.

End Adapter.

(** ** [src/weather-providers/pirateweather-provider.ts] *)
Module PirateWeatherProvider.
Import Adapter.

Record CurrentWeather : Type := {
  temperature : number;
  feelsLike : number;
  condition : string;
  conditionUnified : value Weather;
  cur_icon : value string;
  cur_humidity : number;
  cur_pressure : number;
  cur_windSpeed : number;
  windDirection : option string
}.

Record WeatherData : Type := {
  current : CurrentWeather;
  wd_daily : list DailyWeather
}.

Definition iconMap : gmap string Weather :=
  list_to_map
    [ ("clear-day", ClearSky); ("clear-night", ClearSky); ("rain", Rain);
      ("snow", Snow); ("sleet", Snow); ("wind", Clouds); ("fog", Mist);
      ("cloudy", Clouds); ("partly-cloudy-day", Clouds);
      ("partly-cloudy-night", Clouds); ("hail", Snow);
      ("thunderstorm", Rain); ("tornado", Clouds) ].

Definition mapIconToCondition (icon : string) : value Weather :=
  lookup_or iconMap icon All.

Definition iconMapping : gmap string string :=
  list_to_map
    [ ("clear-day", "01d"); ("clear-night", "01n"); ("rain", "10d");
      ("snow", "13d"); ("sleet", "13d"); ("wind", "50d"); ("fog", "50d");
      ("cloudy", "04d"); ("partly-cloudy-day", "02d");
      ("partly-cloudy-night", "02n"); ("hail", "09d");
      ("thunderstorm", "11d"); ("tornado", "50d") ].

(** For an inherited member the template interpolates the member's source
    text, which the language leaves to the implementation: the result, a
    URL with that text in the place of the code, is kept as
    [Builtin name]. *)
Definition getIconUrl (icon : string) : value string :=
  match lookup_or iconMapping icon "01d" with
  | Val mappedIcon =>
      Val ("https://openweathermap.org/img/wn/" ++ mappedIcon ++ "@2x.png")
  | Builtin name => Builtin name
  end.

Definition transformDailyWeather (day : PirateWeatherDaily) : DailyWeather :=
  {| d_date := new_Date (time day * 1000)%Q;
     d_temperatureMax :=
       Math_round (or (temperatureMax day) (temperatureHigh day));
     d_temperatureMin :=
       Math_round (or (temperatureMin day) (temperatureLow day));
     d_condition := formatCondition (summary day);
     d_conditionUnified := mapIconToCondition (icon day);
     d_icon := getIconUrl (icon day);
     d_humidity := Math_round (humidity day * 100)%Q;
     d_pressure := Math_round (pressure day);
     d_windSpeed := (Math_round (windSpeed day * 10) / 10)%Q;
     d_windGust :=
       match windGust day with
       | Some gust =>
           if truthy gust then Some (Math_round (gust * 10) / 10)%Q
           else None
       | None => None
       end;
     d_windBearing := windBearing day;
     d_cloudCover := Math_round (cloudCover day * 100)%Q;
     d_uvIndex := uvIndex day |}.

Definition transformResponse (data : PirateWeatherResponse) : WeatherData :=
  let currently := currently data in
  let daily := db_data (daily data) in
  let conditionUnified := mapIconToCondition (c_icon currently) in
  let currentIcon := getIconUrl (c_icon currently) in
  let windDirection := bearingToDirection (c_windBearing currently) in
  {| current :=
       {| temperature := Math_round (c_temperature currently);
          feelsLike := Math_round (c_apparentTemperature currently);
          condition := formatCondition (c_summary currently);
          conditionUnified := conditionUnified;
          cur_icon := currentIcon;
          cur_humidity := Math_round (c_humidity currently * 100)%Q;
          cur_pressure := Math_round (c_pressure currently);
          cur_windSpeed := (Math_round (c_windSpeed currently * 10) / 10)%Q;
          windDirection := windDirection |};
     wd_daily := transformDailyWeather <$> take 7 daily |}.

Definition fetchWeatherAsync : WeatherProviderConfig -> Async WeatherData :=
  Adapter.fetchWeatherAsync (fun data _ => transformResponse data).

End PirateWeatherProvider.

(** ** The card, and the copy of the adapter that comes with it
    ([src/unnamed/part_000]) *)
Module Part000.

(** *** The second copy of the adapter *)
Module PirateWeatherProvider.
Import Adapter.

Record CurrentWeather : Type := {
  temperature : number;
  feelsLike : number;
  condition : string;
  conditionUnified : value Weather;
  cur_icon : value string;
  cur_humidity : number;
  cur_pressure : number;
  cur_windSpeed : number;
  windDirection : option string;
  cur_uvIndex : number
}.

Record Location : Type := {
  loc_latitude : number;
  loc_longitude : number;
  loc_timezone : string
}.

Record WeatherData : Type := {
  current : CurrentWeather;
  wd_daily : list DailyWeather;
  location : Location
}.

Definition iconMap : gmap string Weather :=
  list_to_map
    [ ("clear-day", Clear); ("clear-night", Clear); ("rain", Rain);
      ("snow", Snow); ("sleet", Snow); ("wind", Wind); ("fog", Fog);
      ("cloudy", Clouds); ("partly-cloudy-day", Clouds);
      ("partly-cloudy-night", Clouds); ("hail", Snow);
      ("thunderstorm", Thunderstorm); ("tornado", Extreme) ].

Definition mapIconToCondition (icon : string) : value Weather :=
  lookup_or iconMap icon All.

Definition baseIconUrl : string :=
  "https://raw.githubusercontent.com/manifestinteractive/weather-underground-icons/master/dist/icons/white/png/64x64".

Definition iconMapping : gmap string string :=
  list_to_map
    [ ("clear-day", baseIconUrl ++ "/clear.png");
      ("clear-night", baseIconUrl ++ "/nt_clear.png");
      ("rain", baseIconUrl ++ "/rain.png");
      ("snow", baseIconUrl ++ "/snow.png");
      ("sleet", baseIconUrl ++ "/sleet.png");
      ("wind", baseIconUrl ++ "/wind.png");
      ("fog", baseIconUrl ++ "/fog.png");
      ("cloudy", baseIconUrl ++ "/cloudy.png");
      ("partly-cloudy-day", baseIconUrl ++ "/partlycloudy.png");
      ("partly-cloudy-night", baseIconUrl ++ "/nt_partlycloudy.png");
      ("hail", baseIconUrl ++ "/sleet.png");
      ("thunderstorm", baseIconUrl ++ "/tstorms.png");
      ("tornado", baseIconUrl ++ "/tornado.png") ].

Definition getIconUrl (icon : string) : value string :=
  lookup_or iconMapping icon (baseIconUrl ++ "/cloudy.png").

Definition transformDailyWeather (day : PirateWeatherDaily) : DailyWeather :=
  {| d_date := new_Date (time day * 1000)%Q;
     d_temperatureMax := or (temperatureMax day) (temperatureHigh day);
     d_temperatureMin := or (temperatureMin day) (temperatureLow day);
     d_condition := formatCondition (summary day);
     d_conditionUnified := mapIconToCondition (icon day);
     d_icon := getIconUrl (icon day);
     d_humidity := (humidity day * 100)%Q;
     d_pressure := pressure day;
     d_windSpeed := windSpeed day;
     d_windGust := windGust day;
     d_windBearing := windBearing day;
     d_cloudCover := (cloudCover day * 100)%Q;
     d_uvIndex := uvIndex day |}.

Definition transformResponse (data : PirateWeatherResponse)
    (_units : string) : WeatherData :=
  let currently := currently data in
  let daily := db_data (daily data) in
  let conditionUnified := mapIconToCondition (c_icon currently) in
  let currentIcon := getIconUrl (c_icon currently) in
  let windDirection := bearingToDirection (c_windBearing currently) in
  {| current :=
       {| temperature := c_temperature currently;
          feelsLike := c_apparentTemperature currently;
          condition := formatCondition (c_summary currently);
          conditionUnified := conditionUnified;
          cur_icon := currentIcon;
          cur_humidity := (c_humidity currently * 100)%Q;
          cur_pressure := c_pressure currently;
          cur_windSpeed := c_windSpeed currently;
          windDirection := windDirection;
          cur_uvIndex := c_uvIndex currently |};
     wd_daily := transformDailyWeather <$> take 7 daily;
     location :=
       {| loc_latitude := r_latitude data;
          loc_longitude := r_longitude data;
          loc_timezone := r_timezone data |} |}.

Definition fetchWeatherAsync : WeatherProviderConfig -> Async WeatherData :=
  Adapter.fetchWeatherAsync transformResponse.

End PirateWeatherProvider.

(** *** The card: [initConnectCallbackAsync] *)
Module WallClockCard.

(** A value of a field whose declared type is not among the sources. *)
Inductive any : Type :=
| JsUndefined
| JsNull
| JsBoolean (b : bool)
| JsNumber (n : number)
| JsString (s : string)
| JsObject.

#[export] Instance any_truthy : Truthy any := fun v =>
  match v with
  | JsUndefined | JsNull => false
  | JsBoolean b => b
  | JsNumber n => truthy n
  | JsString s => truthy s
  | JsObject => true
  end.

(** Modelled from the spec: [WallClockConfig] of [./types], with the
    fields [initConnectCallbackAsync] reads. *)
Record WallClockConfig : Type := {
  fontColor : any;
  transportation : any;
  logLevel : option string;
  showWeather : any
}.

(** The six elements whose [controller.ready] the card awaits, in the
    order of the array given to [Promise.all]. *)
Inductive Component : Type :=
| weatherComponent
| backgroundImageComponent
| clockComponent
| sensorComponent
| transportationComponent
| actionBarComponent.

#[export] Instance Component_eq_dec : EqDecision Component.
Proof. solve_decision. Defined.

Definition components : list Component :=
  [ weatherComponent; backgroundImageComponent; clockComponent;
    sensorComponent; transportationComponent; actionBarComponent ].

(** A promise: pending, or settled once and for all. *)
Inductive Promise : Type :=
| Pending
| Resolved
| RejectedWith (reason : Thrown).

Inductive Message : Type :=
| WeatherMessage (weather : Weather).

(** What the function does to the world outside, in the order it does
    it. *)
Inductive Effect : Type :=
| SetTransportationFontColor (color : any)
| SetTransportation (transportation : any)
| ConfigureLogger (level : string)
  (** [configureLogger({ level: getLogLevelFromString(level),
      prefix: 'wall-clock', ... })] *)
| LoadTranslations
| LoggerDebug (text : string)
| LoggerError (text : string) (error : Thrown)
| Publish (message : Message).

(** What is left of the body of an [async] function of the card: the
    statements up to the next [await], and what follows it. *)
Inductive Body : Type :=
| Return
| Throw (reason : Thrown)
| Do (effect : Effect) (next : Body)
| AwaitAllReady (next : Body)
  (** [await Promise.all([...controller.ready]); next]: a rejection leaves
      the function *)
| TryAwaitTranslations (next : Body) (handler : Thrown -> Body).
  (** [try { await loadTranslationsAsync(); ... } catch (error) { ... }],
      each branch followed by the rest of the function *)

Record State : Type := {
  ready : Component -> Promise;   (** each [controller.ready] *)
  barrier : Promise;              (** the promise of [Promise.all] *)
  translations : Promise;         (** the promise of the loader *)
  body : Body;                    (** what the function has left to run *)
  effects : list Effect           (** what it has done, oldest first *)
}.

(** What happens around the function: a promise it awaits settles, or
    the scheduler gives the function its turn. *)
Inductive Event : Type :=
| ReadySettles (c : Component) (outcome : Promise)
| TranslationsSettle (outcome : Promise)
| Turn.

Definition settle (p outcome : Promise) : Promise :=
  match p with
  | Pending => outcome
  | _ => p
  end.

Definition allReady (ready : Component -> Promise) : bool :=
  forallb (fun c => match ready c with Resolved => true | _ => false end)
          components.

Fixpoint firstRejection (ready : Component -> Promise)
    (cs : list Component) : option Thrown :=
  match cs with
  | [] => None
  | c :: cs =>
      match ready c with
      | RejectedWith reason => Some reason
      | _ => firstRejection ready cs
      end
  end.

(** [Promise.all]: rejected as soon as one element is, resolved when
    every element is. *)
Definition promiseAll (ready : Component -> Promise) : Promise :=
  match firstRejection ready components with
  | Some reason => RejectedWith reason
  | None => if allReady ready then Resolved else Pending
  end.

(** [if (!this.config.showWeather) { Messenger.getInstance().publish(new
    WeatherMessage(Weather.All)); }], the last statement. *)
Definition suppressWeather (config : WallClockConfig) : Body :=
  if negb (truthy (showWeather config))
  then Do (Publish (WeatherMessage All)) Return
  else Return.

(** The [try] statement and what follows it. *)
Definition tryTranslations (config : WallClockConfig) : Body :=
  TryAwaitTranslations
    (Do (LoggerDebug "Loaded translations for all languages")
        (suppressWeather config))
    (fun error =>
       Do (LoggerError "Error loading translations:" error)
          (suppressWeather config)).

Definition initConnectCallbackAsync (config : WallClockConfig) : Body :=
  AwaitAllReady
    (Do (SetTransportationFontColor (fontColor config))
    (Do (SetTransportation (transportation config))
    (Do (ConfigureLogger (or_default (logLevel config) "info"))
    (Do LoadTranslations
    (tryTranslations config))))).

(** The call [this.initConnectCallbackAsync()] made by [connectedCallback],
    suspended at its first [await], the six promises being as [ready]
    says. *)
Definition call (config : WallClockConfig) (ready : Component -> Promise)
    : State :=
  {| ready := ready;
     barrier := promiseAll ready;
     translations := Pending;
     body := initConnectCallbackAsync config;
     effects := [] |}.

(** The function runs without interruption up to its next [await]. *)
Fixpoint sync (b : Body) : list Effect * Body :=
  match b with
  | Do effect next => let '(done, rest) := sync next in (effect :: done, rest)
  | _ => ([], b)
  end.

(** The function on its turn: when the promise it awaits has settled it
    goes on, up to the next [await] or to its end. *)
Definition resume (s : State) : list Effect * Body :=
  match body s with
  | AwaitAllReady next =>
      match barrier s with
      | Pending => ([], body s)
      | Resolved => sync next
      | RejectedWith reason => ([], Throw reason)
      end
  | TryAwaitTranslations next handler =>
      match translations s with
      | Pending => ([], body s)
      | Resolved => sync next
      | RejectedWith error => sync (handler error)
      end
  | _ => ([], body s)
  end.

Definition step (s : State) (ev : Event) : State :=
  match ev with
  | ReadySettles c outcome =>
      match ready s c with
      | Pending =>
          let ready' := <[c := outcome]> (ready s) in
          {| ready := ready';
             barrier :=
               settle (barrier s)
                 match outcome with
                 | RejectedWith reason => RejectedWith reason
                 | _ => if allReady ready' then Resolved else Pending
                 end;
             translations := translations s;
             body := body s;
             effects := effects s |}
      | _ => s
      end
  | TranslationsSettle outcome =>
      match body s with
      | TryAwaitTranslations _ _ =>
          {| ready := ready s;
             barrier := barrier s;
             translations := settle (translations s) outcome;
             body := body s;
             effects := effects s |}
      | _ => s
      end
  | Turn =>
      let '(done, rest) := resume s in
      {| ready := ready s;
         barrier := barrier s;
         translations := translations s;
         body := rest;
         effects := effects s ++ done |}
  end.

(** The state after a schedule of events. *)
Definition exec (s : State) (schedule : list Event) : State :=
  foldl step s schedule.

Definition isFollowUp (e : Effect) : bool :=
  match e with
  | ConfigureLogger _ | LoadTranslations | Publish _ => true
  | _ => false
  end.

Definition isSuppression (e : Effect) : bool :=
  match e with
  | Publish (WeatherMessage All) => true
  | _ => false
  end.

Definition suppressions (s : State) : nat :=
  length (List.filter isSuppression (effects s)).

(** The effects of the body from the barrier to the [try] statement, and
    from the loader's outcome to the end. *)
Definition afterBarrier (config : WallClockConfig) : list Effect :=
  [ SetTransportationFontColor (fontColor config);
    SetTransportation (transportation config);
    ConfigureLogger (or_default (logLevel config) "info");
    LoadTranslations ].

Definition afterTranslations (config : WallClockConfig)
    (outcome : Promise) : list Effect :=
  match outcome with
  | RejectedWith error => [ LoggerError "Error loading translations:" error ]
  | _ => [ LoggerDebug "Loaded translations for all languages" ]
  end
  ++ (if negb (truthy (showWeather config))
      then [ Publish (WeatherMessage All) ] else []).

(** What holds of every state the call goes through: the barrier is
    resolved only when the six promises are, and the function is at one of
    four places (the barrier, thrown out by a rejected barrier, the [try]
    statement, the end), with the effects of the part of the body that has
    run. *)
Definition consistent (config : WallClockConfig) (s : State) : Prop :=
  (barrier s = Resolved -> allReady (ready s) = true)
  /\ ((body s = initConnectCallbackAsync config /\ effects s = [])
      \/ ((exists reason,
              body s = Throw reason /\ barrier s = RejectedWith reason)
          /\ effects s = [])
      \/ (body s = tryTranslations config
          /\ barrier s = Resolved
          /\ effects s = afterBarrier config)
      \/ (body s = Return
          /\ barrier s = Resolved
          /\ exists outcome,
               outcome <> Pending
               /\ effects s
                  = (afterBarrier config
                     ++ afterTranslations config outcome)%list)).

(** The promise of [Promise.all] follows the six promises: it is resolved
    as soon as all six are, and rejected only when one of them is. *)
Definition barrierFollows (s : State) : Prop :=
  (allReady (ready s) = true -> barrier s = Resolved)
  /\ (forall reason,
        barrier s = RejectedWith reason ->
        exists c reason', ready s c = RejectedWith reason').

(** A schedule under which the call runs to its end from a state where the
    six promises are resolved: the function gets a turn, the loader
    settles, the function gets a turn again, whatever else happens before,
    between and after. *)
Definition fair (outcome : Promise) (mid mid' post : list Event)
    : list Event :=
  ([Turn] ++ mid ++ [TranslationsSettle outcome] ++ mid' ++ [Turn]
   ++ post)%list.

End WallClockCard.

End Part000.

(** ** Inputs used to evaluate the definitions *)
Module Samples.

Definition config : WeatherProviderConfig :=
  {| apiKey := Some "0123456789abcdef";
     latitude := Some 50.0755%Q;
     longitude := Some 14.4378%Q;
     units := Some "metric" |}.

Definition day (t humidity cloudCover : number) : PirateWeatherDaily :=
  {| time := t; summary := "Light rain"; icon := "rain";
     temperatureHigh := 17.4%Q; temperatureLow := 8.1%Q;
     temperatureMax := 18.2%Q; temperatureMin := 7.6%Q;
     apparentTemperatureHigh := 16.9%Q; apparentTemperatureLow := 6.3%Q;
     humidity := humidity; pressure := 1012.6%Q; windSpeed := 3.46%Q;
     windGust := Some 7.9%Q; windBearing := 225%Q;
     cloudCover := cloudCover; uvIndex := 4%Q |}.

Definition conditions (humidity : number) : PirateWeatherCurrently :=
  {| c_time := 1700000000%Q; c_summary := "Partly Cloudy";
     c_icon := "partly-cloudy-day"; c_temperature := 14.6%Q;
     c_apparentTemperature := 13.9%Q; c_humidity := humidity;
     c_pressure := 1013.2%Q; c_windSpeed := 4.12%Q; c_windGust := None;
     c_windBearing := 359%Q; c_cloudCover := 0.5%Q; c_uvIndex := 3%Q;
     c_visibility := 16%Q |}.

(** A body whose daily series has [n] entries, one day apart. *)
Definition body (humidity : number) (n : nat) : PirateWeatherResponse :=
  {| r_latitude := 50.0755%Q; r_longitude := 14.4378%Q;
     r_timezone := "Europe/Prague";
     currently := conditions humidity;
     daily :=
       {| db_summary := "Rain through the week"; db_icon := "rain";
          db_data :=
            (fun i => day (inject_Z (1700000000 + 86400 * Z.of_nat i))
                          0.125%Q 0.375%Q) <$> seq 0 n |} |}.

Definition notFound : Response :=
  {| ok := false; status := 404%N; statusText := "Not Found";
     json := inl (Error "Unexpected token < in JSON at position 0") |}.

Definition success : Response :=
  {| ok := true; status := 200%N; statusText := "OK";
     json := inr (body 0.125%Q 10) |}.

Definition unreadable : Response :=
  {| ok := true; status := 200%N; statusText := "OK";
     json := inl (Error "Unexpected end of JSON input") |}.

(** The six elements become ready in the order of the array, the
    function takes its turn, the loader settles, the function takes its
    turn again. *)
Definition schedule (translations : Part000.WallClockCard.Promise)
    : list Part000.WallClockCard.Event :=
  ((fun c => Part000.WallClockCard.ReadySettles c Part000.WallClockCard.Resolved)
     <$> Part000.WallClockCard.components)
  ++ [ Part000.WallClockCard.Turn;
       Part000.WallClockCard.TranslationsSettle translations;
       Part000.WallClockCard.Turn ].

Definition cardConfig (showWeather : Part000.WallClockCard.any)
    : Part000.WallClockCard.WallClockConfig :=
  {| Part000.WallClockCard.fontColor :=
       Part000.WallClockCard.JsString "255, 255, 255";
     Part000.WallClockCard.transportation := Part000.WallClockCard.JsUndefined;
     Part000.WallClockCard.logLevel := Some "debug";
     Part000.WallClockCard.showWeather := showWeather |}.

End Samples.

(** ** Decidable equality of the enum *)

#[export] Instance Weather_eq_dec : EqDecision Weather.
Proof. solve_decision. Defined.

(** ** The card element: the methods that run at once

    [setupComponents], [initBackgroundImageComponent], [connectedCallback]
    up to the asynchronous call, [render], and the statements after the
    class that register the element ([src/unnamed/part_000]).  The
    configuration and the sub-components are objects: an object is the map
    of its properties, and every property the card reads or assigns is named
    by a literal of the source, none of them inherited from
    [Object.prototype]. *)
Module Element.

#[warnings="-register-all"]
Inductive Value : Type :=
| VUndefined
| VNull
| VBoolean (b : bool)
| VNumber (n : number)
| VString (s : string)
| VObject (props : gmap string Value)
| VArray (items : list Value).

#[export] Instance Value_truthy : Truthy Value := fun v =>
  match v with
  | VUndefined | VNull => false
  | VBoolean b => b
  | VNumber n => truthy n
  | VString s => truthy s
  | VObject _ | VArray _ => true
  end.

(** [o[k]] for an object given by its properties. *)
Definition prop (props : gmap string Value) (k : string) : Value :=
  default VUndefined (props !! k).

(** [v.k] for a value that is neither [undefined] nor [null] (where the
    language throws): a property of an object, [undefined] on anything else
    for the names the card reads. *)
Definition get (v : Value) (k : string) : Value :=
  match v with
  | VObject props => prop props k
  | _ => VUndefined
  end.

(** [v?.k] *)
Definition getOptional (v : Value) (k : string) : Value :=
  match v with
  | VUndefined | VNull => VUndefined
  | _ => get v k
  end.

(** [a ?? b] *)
Definition nullish (a b : Value) : Value :=
  match a with
  | VUndefined | VNull => b
  | _ => a
  end.

(** [v === true] and [v !== null] *)
Definition isTrue (v : Value) : bool :=
  match v with
  | VBoolean true => true
  | _ => false
  end.

Definition isNotNull (v : Value) : bool :=
  match v with
  | VNull => false
  | _ => true
  end.

(** The characters of a string as the properties "0", "1", ... *)
Fixpoint characters (i : nat) (s : string) : list (string * Value) :=
  match s with
  | EmptyString => []
  | String c rest => (pretty i, VString (String c "")) :: characters (S i) rest
  end.

(** [{ ...v }]: the own enumerable properties of [v]. *)
Definition spread (v : Value) : gmap string Value :=
  match v with
  | VObject props => props
  | VArray items => list_to_map (imap (fun i item => (pretty i, item)) items)
  | VString s => list_to_map (characters 0 s)
  | _ => ∅
  end.

(** A run of assignments [o.k1 = v1; o.k2 = v2; ...] to one object. *)
Definition assign (assignments : list (string * Value))
    (o : gmap string Value) : gmap string Value :=
  foldl (fun o '(k, v) => <[k := v]> o) o assignments.

(** The card: its configuration, [hass], the six sub-components by the
    properties the card assigns, the current component of the bottom bar
    manager, and the lines given to [logger.debug]. *)
Record Card : Type := {
  config : gmap string Value;
  hass : Value;
  clockComponent : gmap string Value;
  sensorComponent : gmap string Value;
  weatherComponent : gmap string Value;
  backgroundImageComponent : gmap string Value;
  transportationComponent : gmap string Value;
  actionBarComponent : gmap string Value;
  currentComponent : Value;
  debugLog : list string
}.

(** The object built for [this.config.actionBar]. *)
Definition actionBarOf (config : gmap string Value) : Value :=
  let enabled := VBoolean (isTrue (prop config "enableActionBar")) in
  if truthy (prop config "actionBar")
  then VObject (<["enabled" := enabled]> (spread (prop config "actionBar")))
  else VObject (<["enabled" := enabled]> (<["actions" := VArray []]> ∅)).

Definition setupComponents (this : Card) : Card :=
  let cfg := prop (config this) in
  let customSizes := cfg "customSizes" in
  let clock :=
    assign
      ([ ("timeFormat", cfg "timeFormat");
         ("dateFormat", cfg "dateFormat");
         ("language", cfg "language");
         ("timeZone", cfg "timeZone");
         ("fontColor", cfg "fontColor");
         ("size", cfg "size") ]
       ++ (if truthy customSizes
           then [ ("clockSize", get customSizes "clockSize");
                  ("dateSize", get customSizes "dateSize");
                  ("clockTopMargin", get customSizes "clockTopMargin") ]
           else []))
      (clockComponent this) in
  let sensor :=
    assign
      ([ ("sensors", cfg "sensors");
         ("fontColor", cfg "fontColor");
         ("size", cfg "size") ]
       ++ (if truthy customSizes
           then [ ("labelSize", get customSizes "labelSize");
                  ("valueSize", get customSizes "valueSize") ]
           else [])
       ++ (if truthy (hass this) then [ ("hass", hass this) ] else []))
      (sensorComponent this) in
  let weather :=
    assign
      ([ ("showWeather", cfg "showWeather");
         ("weatherProvider", cfg "weatherProvider");
         ("weatherConfig", cfg "weatherConfig");
         ("weatherDisplayMode", cfg "weatherDisplayMode");
         ("weatherForecastDays", cfg "weatherForecastDays");
         ("weatherTitle", cfg "weatherTitle");
         ("weatherUpdateInterval", cfg "weatherUpdateInterval");
         ("fontColor", cfg "fontColor");
         ("language", cfg "language");
         ("size", cfg "size") ]
       ++ (if truthy customSizes
           then [ ("labelSize", get customSizes "labelSize");
                  ("valueSize", get customSizes "valueSize") ]
           else []))
      (weatherComponent this) in
  let transportation :=
    assign
      [ ("transportation", cfg "transportation");
        ("fontColor", cfg "fontColor") ]
      (transportationComponent this) in
  let actionBar := actionBarOf (config this) in
  let config' := <["actionBar" := actionBar]> (config this) in
  let cfg' := prop config' in
  let actionBarComponent :=
    assign
      ([ ("config", cfg' "actionBar");
         ("fontColor", cfg' "fontColor");
         ("size", cfg' "size") ]
       ++ (if truthy (cfg' "customSizes")
           then [ ("iconSize", get (cfg' "customSizes") "actionBarIconSize") ]
           else []))
      (actionBarComponent this) in
  {| config := config';
     hass := hass this;
     clockComponent := clock;
     sensorComponent := sensor;
     weatherComponent := weather;
     backgroundImageComponent := backgroundImageComponent this;
     transportationComponent := transportation;
     actionBarComponent := actionBarComponent;
     currentComponent := currentComponent this;
     debugLog := debugLog this |}.

Definition initBackgroundImageComponent (this : Card) : Card :=
  let cfg := prop (config this) in
  let imageSourceConfig :=
    VObject
      (list_to_map
         [ ("imageSourceId", or (cfg "imageSource") (VString "picsum"));
           ("backgroundImages", cfg "backgroundImages");
           ("entity", getOptional (cfg "imageConfig") "entity");
           ("apiKey", getOptional (cfg "imageConfig") "apiKey");
           ("contentFilter", getOptional (cfg "imageConfig") "contentFilter");
           ("category", getOptional (cfg "imageConfig") "category");
           ("count", getOptional (cfg "imageConfig") "count") ]) in
  let background :=
    assign
      [ ("backgroundOpacity",
         nullish (cfg "backgroundOpacity") (VNumber 0.5%Q));
        ("config",
         VObject
           (list_to_map
              [ ("imageSourceConfig", imageSourceConfig);
                ("backgroundRotationInterval",
                 cfg "backgroundRotationInterval") ]));
        ("hass", hass this) ]
      (backgroundImageComponent this) in
  {| config := config this;
     hass := hass this;
     clockComponent := clockComponent this;
     sensorComponent := sensorComponent this;
     weatherComponent := weatherComponent this;
     backgroundImageComponent := background;
     transportationComponent := transportationComponent this;
     actionBarComponent := actionBarComponent this;
     currentComponent := currentComponent this;
     debugLog :=
       (debugLog this ++ ["Background image component initialized"])%list |}.

(** [connectedCallback], up to the call of [initConnectCallbackAsync],
    which it does not await. *)
Definition connectedCallback (this : Card) : Card :=
  setupComponents (initBackgroundImageComponent this).

(** What [render] puts in the card, in the order of the template. *)
Inductive Part : Type :=
| BackgroundImage
| Sensors
| WeatherBlock
| Clock (style : string)
| BottomBar.

Record Template : Type := {
  color : Value;         (** [rgb(${this.config.fontColor})] *)
  parts : list Part
}.

Definition render (this : Card) : Template :=
  let hasBottomBar := isNotNull (currentComponent this) in
  let clockMarginStyle := if hasBottomBar then "margin-top: -140px;" else "" in
  {| color := prop (config this) "fontColor";
     parts :=
       [ BackgroundImage; Sensors ]
       ++ (if truthy (prop (config this) "showWeather")
           then [ WeatherBlock ] else [])
       ++ [ Clock clockMarginStyle; BottomBar ] |}.

(** What [initConnectCallbackAsync] reads of a value of the
    configuration. *)
Definition toAny (v : Value) : Part000.WallClockCard.any :=
  match v with
  | VUndefined => Part000.WallClockCard.JsUndefined
  | VNull => Part000.WallClockCard.JsNull
  | VBoolean b => Part000.WallClockCard.JsBoolean b
  | VNumber n => Part000.WallClockCard.JsNumber n
  | VString s => Part000.WallClockCard.JsString s
  | VObject _ | VArray _ => Part000.WallClockCard.JsObject
  end.

(** *** The statements after the class *)

Inductive Constructor : Type :=
| WallClockCard
| Other (id : nat).

(** An entry of [window.customCards]. *)
Record CardEntry : Type := {
  entry_type : string;
  entry_name : string;
  entry_description : string;
  entry_preview : bool;
  entry_documentationURL : string
}.

(** The registry of custom elements and [window.customCards], which is an
    array or is not there. *)
Record Window : Type := {
  customElements : gmap string Constructor;
  customCards : option (list CardEntry)
}.

Definition tag : string := "wall-clock-card-pirateweather".

Definition thisCard : CardEntry :=
  {| entry_type := "wall-clock-card-pirateweather";
     entry_name := "Wall Clock Card Pirate Weather";
     entry_description :=
       "A beautiful clock card with weather forecast, sensors, transportation info, and dynamic backgrounds";
     entry_preview := true;
     entry_documentationURL := "https://github.com/rkotulan/ha-wall-clock-card" |}.

Definition registration (window : Window) : Window :=
  {| customElements :=
       match customElements window !! tag with
       | Some _ => customElements window
       | None => <[tag := WallClockCard]> (customElements window)
       end;
     customCards :=
       Some (default [] (customCards window) ++ [thisCard])%list |}.

End Element.

(** Sample cards and windows. *)
Module SampleCards.
Import Element.

(** A card as the class fields leave it (no [hass], empty sub-components)
    with a given configuration. *)
Definition fresh (config : gmap string Value) : Card :=
  {| config := config;
     hass := VUndefined;
     clockComponent := ∅;
     sensorComponent := ∅;
     weatherComponent := ∅;
     backgroundImageComponent := ∅;
     transportationComponent := ∅;
     actionBarComponent := ∅;
     currentComponent := VNull;
     debugLog := [] |}.

Definition plain : gmap string Value :=
  list_to_map
    [ ("fontColor", VString "255, 255, 255");
      ("showWeather", VBoolean false);
      ("imageSource", VString "");
      ("backgroundOpacity", VNumber 0%Q) ].

Definition sized : gmap string Value :=
  list_to_map
    [ ("fontColor", VString "255, 255, 255");
      ("showWeather", VBoolean true);
      ("enableActionBar", VString "true");
      ("actionBar",
       VObject (list_to_map [ ("actions", VArray [VString "home"]);
                              ("enabled", VBoolean true) ]));
      ("customSizes",
       VObject (list_to_map [ ("clockSize", VString "8rem");
                              ("labelSize", VString "1rem") ])) ].

(** A window where another module has taken the tag and listed a card. *)
Definition taken : Window :=
  {| customElements := {[ tag := Other 0 ]};
     customCards := Some [thisCard] |}.

Definition empty : Window :=
  {| customElements := ∅; customCards := None |}.

End SampleCards.

(** * Properties *)

(** ** [fetchWeatherAsync]: validation and failure modes *)

Lemma truthy_zero (n : number) : (n == 0)%Q -> truthy n = false.
Proof.
  intros Hn. unfold truthy, number_truthy.
  apply Qeq_bool_iff in Hn. now rewrite Hn.
Qed.

Section FetchContract.
Context {WeatherData : Type}.
Variable transformResponse : PirateWeatherResponse -> string -> WeatherData.
Local Abbreviation fetchWeatherAsync :=
  (Adapter.fetchWeatherAsync transformResponse).

Lemma rejected_without_apiKey config :
  truthy (apiKey config) = false ->
  fetchWeatherAsync config
  = Rejected (Error "Pirate Weather API key is required").
Proof. intros H. unfold Adapter.fetchWeatherAsync. now rewrite H. Qed.

Lemma rejected_without_coordinates config :
  truthy (apiKey config) = true ->
  truthy (latitude config) = false \/ truthy (longitude config) = false ->
  fetchWeatherAsync config
  = Rejected (Error "Latitude and longitude are required").
Proof.
  intros Hkey Hcoord. unfold Adapter.fetchWeatherAsync. rewrite Hkey. simpl.
  destruct Hcoord as [-> | ->]; simpl; [reflexivity |].
  now rewrite orb_true_r.
Qed.

Lemma validated_fetches config :
  truthy (apiKey config) = true ->
  truthy (latitude config) = true ->
  truthy (longitude config) = true ->
  exists url,
    fetchWeatherAsync config
    = Fetch url (fun settled =>
        match Adapter.tryBlock transformResponse config settled with
        | inr weather => Fulfilled weather
        | inl error => Rejected (Adapter.catchBlock error)
        end).
Proof.
  intros Hk Hla Hlo. unfold Adapter.fetchWeatherAsync.
  rewrite Hk, Hla, Hlo. simpl. eauto.
Qed.

Lemma rejected_issues_no_request config (e : Thrown) :
  fetchWeatherAsync config = Rejected e ->
  forall net, requests net (fetchWeatherAsync config) = [].
Proof. intros -> net. reflexivity. Qed.

(** C1. Whatever [transformResponse] is (so in both copies of the
    adapter): when the API key is absent or empty, or the latitude or the
    longitude is absent or zero, [fetchWeatherAsync] rejects with one of
    its two validation messages, and the call contains no request: on
    every network the list of requests issued is empty. *)
Theorem fetchWeatherAsync_rejects_unset_config config :
  (apiKey config = None \/ apiKey config = Some "")
  \/ (latitude config = None
      \/ exists n, latitude config = Some n /\ (n == 0)%Q)
  \/ (longitude config = None
      \/ exists n, longitude config = Some n /\ (n == 0)%Q) ->
  exists message,
    (message = "Pirate Weather API key is required"
     \/ message = "Latitude and longitude are required")
    /\ fetchWeatherAsync config = Rejected (Error message)
    /\ forall net, requests net (fetchWeatherAsync config) = [].
Proof.
  intros Hunset.
  destruct (truthy (apiKey config)) eqn:Hkey.
  - assert (truthy (latitude config) = false
            \/ truthy (longitude config) = false) as Hcoord.
    { destruct Hunset as [[Hk | Hk] | [Hla | Hlo]].
      + rewrite Hk in Hkey. discriminate.
      + rewrite Hk in Hkey. discriminate.
      + left. destruct Hla as [-> | (n & -> & Hn)]; [reflexivity |].
        now apply truthy_zero.
      + right. destruct Hlo as [-> | (n & -> & Hn)]; [reflexivity |].
        now apply truthy_zero. }
    exists "Latitude and longitude are required".
    pose proof (rejected_without_coordinates config Hkey Hcoord) as Hrej.
    split; [now right | split; [exact Hrej |]].
    exact (rejected_issues_no_request config _ Hrej).
  - exists "Pirate Weather API key is required".
    pose proof (rejected_without_apiKey config Hkey) as Hrej.
    split; [now left | split; [exact Hrej |]].
    exact (rejected_issues_no_request config _ Hrej).
Qed.

(** C4, as the code has it.  With a validated configuration the call
    issues exactly one request, and every failure passes through the one
    [catch] block: a response that is not [ok] fails with the prefix
    "Failed to fetch Pirate Weather data: " followed by "Pirate Weather
    API error: ", the status code, a space and the status text; an [Error]
    thrown by [fetch] or by the parser fails with the same prefix followed
    by that error's message; anything else that is thrown fails with the
    bare text "Failed to fetch Pirate Weather data". *)
Theorem fetchWeatherAsync_failure_modes config (net : Network) :
  truthy (apiKey config) = true ->
  truthy (latitude config) = true ->
  truthy (longitude config) = true ->
  exists url,
    requests net (fetchWeatherAsync config) = [url]
    /\ (forall response,
          net url = inr response -> ok response = false ->
          settles net (fetchWeatherAsync config)
          = inl (Error ("Failed to fetch Pirate Weather data: "
                        ++ "Pirate Weather API error: "
                        ++ pretty (status response) ++ " "
                        ++ statusText response)))
    /\ (forall message,
          net url = inl (Error message) ->
          settles net (fetchWeatherAsync config)
          = inl (Error ("Failed to fetch Pirate Weather data: " ++ message)))
    /\ (forall response message,
          net url = inr response -> ok response = true ->
          json response = inl (Error message) ->
          settles net (fetchWeatherAsync config)
          = inl (Error ("Failed to fetch Pirate Weather data: " ++ message)))
    /\ (net url = inl NotAnError
        \/ (exists response,
              net url = inr response /\ ok response = true
              /\ json response = inl NotAnError) ->
        settles net (fetchWeatherAsync config)
        = inl (Error "Failed to fetch Pirate Weather data")).
Proof.
  intros Hk Hla Hlo.
  destruct (validated_fetches config Hk Hla Hlo) as [url Hcall].
  exists url. rewrite Hcall. unfold requests, settles. cbn [run].
  split; [| repeat split].
  - now destruct (Adapter.tryBlock _ _ _).
  - intros response -> Hok. cbn. now rewrite Hok.
  - intros message ->. reflexivity.
  - intros response message -> Hok Hjson. cbn. now rewrite Hok, Hjson.
  - intros [-> | (response & -> & Hok & Hjson)]; cbn; [reflexivity |].
    now rewrite Hok, Hjson.
Qed.

(** A response that is [ok] and whose body parses resolves the call with
    the transformed body, after the one request. *)
Lemma fetchWeatherAsync_success config (net : Network) :
  truthy (apiKey config) = true ->
  truthy (latitude config) = true ->
  truthy (longitude config) = true ->
  exists url,
    requests net (fetchWeatherAsync config) = [url]
    /\ url_units url = Adapter.mapUnits (or_default (units config) "metric")
    /\ forall response data,
         net url = inr response -> ok response = true ->
         json response = inr data ->
         settles net (fetchWeatherAsync config)
         = inr (transformResponse data (or_default (units config) "metric")).
Proof.
  intros Hk Hla Hlo. unfold Adapter.fetchWeatherAsync.
  rewrite Hk, Hla, Hlo. cbn [negb orb]. eexists.
  unfold requests, settles. cbn [run]. split; [| split].
  - now destruct (Adapter.tryBlock _ _ _).
  - reflexivity.
  - intros response data -> Hok Hjson. cbn. now rewrite Hok, Hjson.
Qed.
End FetchContract.

Lemma fetchWeatherAsync_rejects_unset_config_witness :
  let config := {| apiKey := Some "0123456789abcdef"; latitude := Some 0%Q;
                   longitude := Some 14.4378%Q; units := None |} in
  (exists n, latitude config = Some n /\ (n == 0)%Q)
  /\ exists message,
       (message = "Pirate Weather API key is required"
        \/ message = "Latitude and longitude are required")
       /\ PirateWeatherProvider.fetchWeatherAsync config
          = Rejected (Error message)
       /\ forall net,
            requests net (PirateWeatherProvider.fetchWeatherAsync config) = [].
Proof.
  intros config.
  assert (exists n, latitude config = Some n /\ (n == 0)%Q) as Hlat.
  { exists 0%Q. split; reflexivity. }
  split; [exact Hlat |].
  apply (fetchWeatherAsync_rejects_unset_config
           (fun data _ => PirateWeatherProvider.transformResponse data) config).
  right. left. right. exact Hlat.
Defined.

Lemma fetchWeatherAsync_failure_modes_witness :
  let call := Part000.PirateWeatherProvider.fetchWeatherAsync Samples.config in
  let net : Network := fun _ => inr Samples.notFound in
  exists url,
    requests net call = [url]
    /\ settles net call
       = inl (Error "Failed to fetch Pirate Weather data: Pirate Weather API error: 404 Not Found").
Proof.
  intros call net.
  destruct (fetchWeatherAsync_failure_modes
              Part000.PirateWeatherProvider.transformResponse
              Samples.config net)
    as (url & Hrequests & Hhttp & _); [reflexivity | reflexivity | reflexivity |].
  exists url. split; [exact Hrequests |].
  exact (Hhttp Samples.notFound eq_refl eq_refl).
Defined.

(** C4, as the claim has it, fails: the error of a response that is not
    [ok] is thrown inside the [try] block, so it leaves the function
    wrapped by the [catch] block, with the prefix of every other failure.
    A 404 response and a transport failure whose message is "Pirate Weather
    API error: 404 Not Found" reject with the same error, in both copies. *)
Lemma http_error_is_wrapped_like_any_failure :
  let http : Network := fun _ => inr Samples.notFound in
  let transport : Network :=
    fun _ => inl (Error "Pirate Weather API error: 404 Not Found") in
  let wrapped : Thrown :=
    Error "Failed to fetch Pirate Weather data: Pirate Weather API error: 404 Not Found" in
  settles http (PirateWeatherProvider.fetchWeatherAsync Samples.config)
  = inl wrapped
  /\ settles transport (PirateWeatherProvider.fetchWeatherAsync Samples.config)
     = inl wrapped
  /\ settles http (Part000.PirateWeatherProvider.fetchWeatherAsync Samples.config)
     = inl wrapped
  /\ settles transport
       (Part000.PirateWeatherProvider.fetchWeatherAsync Samples.config)
     = inl wrapped.
Proof. repeat split. Qed.

(** C10. In both copies, [fetchWeatherAsync(getDefaultConfig())] rejects
    with the API-key message and issues no request on any network: the
    default configuration has an empty key and zero coordinates, all three
    falsy for the validation. *)
Theorem fetchWeatherAsync_rejects_default_config :
  truthy (apiKey Adapter.getDefaultConfig) = false
  /\ truthy (latitude Adapter.getDefaultConfig) = false
  /\ truthy (longitude Adapter.getDefaultConfig) = false
  /\ PirateWeatherProvider.fetchWeatherAsync Adapter.getDefaultConfig
     = Rejected (Error "Pirate Weather API key is required")
  /\ Part000.PirateWeatherProvider.fetchWeatherAsync Adapter.getDefaultConfig
     = Rejected (Error "Pirate Weather API key is required")
  /\ forall net : Network,
       requests net
         (PirateWeatherProvider.fetchWeatherAsync Adapter.getDefaultConfig) = []
       /\ requests net
            (Part000.PirateWeatherProvider.fetchWeatherAsync
               Adapter.getDefaultConfig) = [].
Proof. repeat split. Qed.

(** The two copies on one body of ten days, fetched from a network that
    answers 200: seven days come out, the bearing 359 reads "N", and the
    humidity 0.125 is 13 in one copy and 12.5 in the other. *)
Example fetchWeatherAsync_sample :
  let net : Network := fun _ => inr Samples.success in
  (exists weather,
     settles net (PirateWeatherProvider.fetchWeatherAsync Samples.config)
     = inr weather
     /\ length (PirateWeatherProvider.wd_daily weather) = 7
     /\ PirateWeatherProvider.windDirection
          (PirateWeatherProvider.current weather) = Some "N"
     /\ PirateWeatherProvider.conditionUnified
          (PirateWeatherProvider.current weather) = Val Clouds
     /\ PirateWeatherProvider.cur_humidity
          (PirateWeatherProvider.current weather) = 13%Q)
  /\ (exists weather,
        settles net
          (Part000.PirateWeatherProvider.fetchWeatherAsync Samples.config)
        = inr weather
        /\ length (Part000.PirateWeatherProvider.wd_daily weather) = 7
        /\ Part000.PirateWeatherProvider.windDirection
             (Part000.PirateWeatherProvider.current weather) = Some "N"
        /\ (Part000.PirateWeatherProvider.cur_humidity
              (Part000.PirateWeatherProvider.current weather) == 12.5)%Q)
  /\ settles (fun _ => inr Samples.unreadable)
       (PirateWeatherProvider.fetchWeatherAsync Samples.config)
     = inl (Error "Failed to fetch Pirate Weather data: Unexpected end of JSON input").
Proof.
  split; [| split]; [eexists | eexists |]; repeat split.
Qed.

(** ** Numbers: [Math.round], [%] and array indexing *)

(** Linear arithmetic over [number]: the alias is unfolded and the integer
    constants injected into [Q] are made literals for [lra]. *)
Ltac number_lra :=
  unfold number in *;
  repeat rewrite inject_Z_plus in *;
  change (inject_Z 1) with 1%Q in *;
  change (inject_Z 0) with 0%Q in *;
  lra.

Lemma Math_round_nearest (x : number) :
  exists n : Z,
    Math_round x = inject_Z n
    /\ (inject_Z n - (1 # 2) <= x)%Q /\ (x < inject_Z n + (1 # 2))%Q.
Proof.
  exists (Qfloor (x + (1 # 2))). split; [reflexivity |].
  pose proof (Qfloor_le (x + (1 # 2))) as Hle.
  pose proof (Qlt_floor (x + (1 # 2))) as Hlt.
  split; number_lra.
Qed.

Lemma Math_round_between (x : number) (lo hi : Z) :
  (inject_Z lo <= x)%Q -> (x <= inject_Z hi)%Q ->
  exists n : Z, (lo <= n <= hi)%Z /\ Math_round x = inject_Z n.
Proof.
  intros Hlo Hhi.
  destruct (Math_round_nearest x) as (n & Hn & Hle & Hlt).
  exists n. split; [| exact Hn]. split.
  - assert (inject_Z lo < inject_Z (n + 1))%Q as H.
    { number_lra. }
    rewrite <- Zlt_Qlt in H. lia.
  - assert (inject_Z n < inject_Z (hi + 1))%Q as H.
    { number_lra. }
    rewrite <- Zlt_Qlt in H. lia.
Qed.

Lemma rem_16_integer (k : Z) :
  (rem (inject_Z k) 16 == inject_Z (Z.rem k 16))%Q.
Proof.
  unfold rem. cbn [Qdiv Qinv Qmult Qnum Qden inject_Z].
  pose proof (Z.quot_rem' k 16) as Hk.
  unfold Qeq. cbn [Qminus Qplus Qopp Qmult Qnum Qden inject_Z].
  rewrite !Pos.mul_1_l, !Z.mul_1_r. lia.
Qed.

Lemma index_integer {A} (arr : list A) (i : number) (z : Z) :
  (i == inject_Z z)%Q -> (0 <= z)%Z -> index arr i = arr !! Z.to_nat z.
Proof.
  intros Hi Hz. unfold index.
  assert (Qfloor i = z) as Hfloor.
  { rewrite (Qfloor_comp _ _ Hi). apply Qfloor_Z. }
  assert (Qle_bool 0 i = true) as ->.
  { apply Qle_bool_iff. rewrite Hi. change 0%Q with (inject_Z 0).
    now rewrite <- Zle_Qle. }
  assert (isInteger i = true) as ->.
  { unfold isInteger. apply Qeq_bool_iff. now rewrite Hfloor. }
  now rewrite Hfloor.
Qed.

(** ** The compass *)

Lemma bearingToDirection_sector (bearing : number) (sector : Z) :
  Math_round (bearing / 22.5)%Q = inject_Z sector -> (0 <= sector)%Z ->
  Adapter.bearingToDirection bearing
  = Adapter.directions !! Z.to_nat (sector mod 16).
Proof.
  intros Hround Hsector. unfold Adapter.bearingToDirection.
  rewrite Hround.
  rewrite <- (Z.rem_mod_nonneg sector 16) by lia.
  apply index_integer; [apply rem_16_integer |].
  apply Z.rem_nonneg; lia.
Qed.



(** Below the first sector there is no compass point: the index is
    negative and the array has no such element. *)
Lemma bearingToDirection_negative :
  Adapter.bearingToDirection (-45)%Q = None.
Proof. reflexivity. Qed.

(** ** Percentages *)

Lemma percentage_in_range (x : number) :
  (0 <= x)%Q -> (x <= 1)%Q -> (0 <= x * 100)%Q /\ (x * 100 <= 100)%Q.
Proof. intros H0 H1. split; number_lra. Qed.

Lemma rounded_percentage (x : number) :
  (0 <= x)%Q -> (x <= 1)%Q ->
  exists n : Z,
    (0 <= n <= 100)%Z
    /\ Math_round (x * 100)%Q = inject_Z n
    /\ (inject_Z n - (1 # 2) <= x * 100)%Q
    /\ (x * 100 < inject_Z n + (1 # 2))%Q.
Proof.
  intros H0 H1.
  destruct (percentage_in_range x H0 H1) as [Hlo Hhi].
  destruct (Math_round_nearest (x * 100)%Q) as (n & Hn & Hle & Hlt).
  destruct (Math_round_between (x * 100)%Q 0 100) as (m & Hm & Hround);
    [exact Hlo | exact Hhi |].
  assert (m = n) as ->.
  { rewrite Hn in Hround. apply (f_equal Qfloor) in Hround.
    rewrite !Qfloor_Z in Hround. congruence. }
  exists n. auto.
Qed.

(** In [src/weather-providers/pirateweather-provider.ts] the humidity of
    the current conditions, and the humidity and the cloud cover of a day,
    are integers from 0 to 100 whenever the vendor's ratio is in [0,1]. *)
Lemma rounded_copy_percentages_are_integers :
  (forall data,
     (0 <= c_humidity (currently data))%Q ->
     (c_humidity (currently data) <= 1)%Q ->
     exists n : Z,
       (0 <= n <= 100)%Z
       /\ PirateWeatherProvider.cur_humidity
            (PirateWeatherProvider.current
               (PirateWeatherProvider.transformResponse data))
          = inject_Z n)
  /\ (forall day,
        (0 <= humidity day)%Q -> (humidity day <= 1)%Q ->
        exists n : Z,
          (0 <= n <= 100)%Z
          /\ d_humidity (PirateWeatherProvider.transformDailyWeather day)
             = inject_Z n)
  /\ (forall day,
        (0 <= cloudCover day)%Q -> (cloudCover day <= 1)%Q ->
        exists n : Z,
          (0 <= n <= 100)%Z
          /\ d_cloudCover (PirateWeatherProvider.transformDailyWeather day)
             = inject_Z n).
Proof.
  repeat split; intros x H0 H1;
    destruct (rounded_percentage _ H0 H1) as (n & Hn & Hround & _);
    exists n; (split; [exact Hn | exact Hround]).
Qed.

(** C3, where the code departs from it.  The second copy of the adapter
    multiplies by 100 and does not round: the humidity of the current
    conditions, and the humidity and the cloud cover of a day, are the
    vendor's ratio times 100 as it is.  For the ratio 0.125 the normalized
    humidity is 12.5, in [0,100] but not an integer, where the copy in
    [src/weather-providers] gives 13. *)
Theorem unrounded_copy_humidity_is_fractional :
  (forall data units,
     Part000.PirateWeatherProvider.cur_humidity
       (Part000.PirateWeatherProvider.current
          (Part000.PirateWeatherProvider.transformResponse data units))
     = (c_humidity (currently data) * 100)%Q)
  /\ (forall day,
        d_humidity (Part000.PirateWeatherProvider.transformDailyWeather day)
        = (humidity day * 100)%Q
        /\ d_cloudCover (Part000.PirateWeatherProvider.transformDailyWeather day)
           = (cloudCover day * 100)%Q)
  /\ (let normalized :=
        Part000.PirateWeatherProvider.cur_humidity
          (Part000.PirateWeatherProvider.current
             (Part000.PirateWeatherProvider.transformResponse
                (Samples.body 0.125%Q 10) "metric")) in
      (normalized == 12.5)%Q /\ isInteger normalized = false)
  /\ (let day := Samples.day 1700000000%Q 0.125%Q 0.375%Q in
      isInteger
        (d_humidity (Part000.PirateWeatherProvider.transformDailyWeather day))
      = false
      /\ isInteger
           (d_cloudCover (Part000.PirateWeatherProvider.transformDailyWeather day))
         = false)
  /\ PirateWeatherProvider.cur_humidity
       (PirateWeatherProvider.current
          (PirateWeatherProvider.transformResponse (Samples.body 0.125%Q 10)))
     = 13%Q.
Proof. repeat split. Qed.

(** ** The daily series *)

Lemma first_seven {A B} (f : A -> B) (series : list A) :
  length (f <$> take 7 series) = min 7 (length series)
  /\ forall i : nat,
       (f <$> take 7 series) !! i
       = if decide (i < 7) then f <$> series !! i else None.
Proof.
  split.
  - now rewrite length_fmap, length_take.
  - intros i. rewrite list_lookup_fmap. case_decide as Hi.
    + now rewrite lookup_take_lt.
    + rewrite lookup_take_ge; [reflexivity | lia].
Qed.



(** ** Lookup tables *)

Lemma lookup_or_own {A} `{Truthy A} (table : gmap string A) key a fallback :
  table !! key = Some a -> truthy a = true ->
  lookup_or table key fallback = Val a.
Proof. intros Hkey Ha. unfold lookup_or. now rewrite Hkey, Ha. Qed.

Lemma lookup_or_missing {A} `{Truthy A} (table : gmap string A) key fallback :
  table !! key = None -> key ∉ Object_prototype ->
  lookup_or table key fallback = Val fallback.
Proof.
  intros Hkey Hproto. unfold lookup_or. rewrite Hkey.
  now rewrite bool_decide_eq_false_2.
Qed.

Lemma lookup_or_inherited {A} `{Truthy A} (table : gmap string A) key fallback :
  table !! key = None -> key ∈ Object_prototype ->
  lookup_or table key fallback = Builtin key.
Proof.
  intros Hkey Hproto. unfold lookup_or. rewrite Hkey.
  now rewrite bool_decide_eq_true_2.
Qed.

Lemma iconMapping_codes_truthy :
  map_Forall (fun _ code => truthy code = true) PirateWeatherProvider.iconMapping
  /\ map_Forall (fun _ url => truthy url = true)
       Part000.PirateWeatherProvider.iconMapping.
Proof. split; refine (bool_decide_unpack _ _); vm_compute; exact I. Qed.

(** What holds of the two tables away from the inherited names: a code of
    the table gives the table's value, any other code gives the fallback. *)
Lemma tables_outside_Object_prototype :
  (forall icon w,
     PirateWeatherProvider.iconMap !! icon = Some w ->
     PirateWeatherProvider.mapIconToCondition icon = Val w)
  /\ (forall icon w,
        Part000.PirateWeatherProvider.iconMap !! icon = Some w ->
        Part000.PirateWeatherProvider.mapIconToCondition icon = Val w)
  /\ (forall icon,
        PirateWeatherProvider.iconMap !! icon = None ->
        icon ∉ Object_prototype ->
        PirateWeatherProvider.mapIconToCondition icon = Val All)
  /\ (forall icon,
        Part000.PirateWeatherProvider.iconMap !! icon = None ->
        icon ∉ Object_prototype ->
        Part000.PirateWeatherProvider.mapIconToCondition icon = Val All)
  /\ (forall icon code,
        PirateWeatherProvider.iconMapping !! icon = Some code ->
        PirateWeatherProvider.getIconUrl icon
        = Val ("https://openweathermap.org/img/wn/" ++ code ++ "@2x.png"))
  /\ (forall icon url,
        Part000.PirateWeatherProvider.iconMapping !! icon = Some url ->
        Part000.PirateWeatherProvider.getIconUrl icon = Val url)
  /\ (forall icon,
        PirateWeatherProvider.iconMapping !! icon = None ->
        icon ∉ Object_prototype ->
        PirateWeatherProvider.getIconUrl icon
        = Val "https://openweathermap.org/img/wn/01d@2x.png")
  /\ (forall icon,
        Part000.PirateWeatherProvider.iconMapping !! icon = None ->
        icon ∉ Object_prototype ->
        Part000.PirateWeatherProvider.getIconUrl icon
        = Val (Part000.PirateWeatherProvider.baseIconUrl ++ "/cloudy.png")).
Proof.
  destruct iconMapping_codes_truthy as [Hcodes Hurls].
  repeat split.
  - intros icon w Hicon. now apply lookup_or_own.
  - intros icon w Hicon. now apply lookup_or_own.
  - intros icon Hicon Hproto. now apply lookup_or_missing.
  - intros icon Hicon Hproto. now apply lookup_or_missing.
  - intros icon code Hicon. unfold PirateWeatherProvider.getIconUrl.
    rewrite (lookup_or_own _ _ code); [reflexivity | exact Hicon |].
    exact (Hcodes icon code Hicon).
  - intros icon url Hicon. apply lookup_or_own; [exact Hicon |].
    exact (Hurls icon url Hicon).
  - intros icon Hicon Hproto. unfold PirateWeatherProvider.getIconUrl.
    now rewrite lookup_or_missing.
  - intros icon Hicon Hproto. now apply lookup_or_missing.
Qed.

(** Every name inherited from [Object.prototype] escapes both tables of
    both copies. *)
Lemma inherited_names_escape_the_tables (name : string) :
  name ∈ Object_prototype ->
  PirateWeatherProvider.mapIconToCondition name = Builtin name
  /\ PirateWeatherProvider.getIconUrl name = Builtin name
  /\ Part000.PirateWeatherProvider.mapIconToCondition name = Builtin name
  /\ Part000.PirateWeatherProvider.getIconUrl name = Builtin name.
Proof.
  intros Hname. unfold Object_prototype in Hname.
  repeat (apply elem_of_cons in Hname as [-> | Hname];
          [repeat split; vm_compute; reflexivity |]).
  now apply not_elem_of_nil in Hname.
Qed.

(** C7, where the code departs from it.  The icon code "constructor" is in
    neither table, and every object literal inherits a member of that name
    from [Object.prototype]: [iconMap[icon]] is that member, which is
    truthy, so [mapIconToCondition] returns it and not [Weather.All], and
    [getIconUrl] does not give the fallback icon.  No call raises and the
    functions are total; the same holds in both copies. *)
Theorem mapIconToCondition_inherited_member :
  PirateWeatherProvider.iconMap !! "constructor" = None
  /\ PirateWeatherProvider.mapIconToCondition "constructor"
     = Builtin "constructor"
  /\ PirateWeatherProvider.mapIconToCondition "constructor" <> Val All
  /\ PirateWeatherProvider.getIconUrl "constructor"
     <> Val "https://openweathermap.org/img/wn/01d@2x.png"
  /\ Part000.PirateWeatherProvider.iconMap !! "constructor" = None
  /\ Part000.PirateWeatherProvider.mapIconToCondition "constructor"
     = Builtin "constructor"
  /\ Part000.PirateWeatherProvider.mapIconToCondition "constructor" <> Val All
  /\ Part000.PirateWeatherProvider.getIconUrl "constructor"
     <> Val (Part000.PirateWeatherProvider.baseIconUrl ++ "/cloudy.png").
Proof. repeat split; vm_compute; congruence. Qed.

(** ** The card: the readiness barrier and what follows it *)
Section Card.
Import Part000.WallClockCard.
Variable config : WallClockConfig.

Lemma allReady_spec (ready : Component -> Promise) :
  allReady ready = true <-> forall c, ready c = Resolved.
Proof.
  unfold allReady, components. cbn [forallb]. split.
  - intros H c. repeat (apply andb_prop in H; destruct H as [? H]).
    destruct c;
      match goal with
      | Hc : match ready ?c with _ => _ end = true |- ready ?c = _ =>
          destruct (ready c); (reflexivity || discriminate Hc)
      end.
  - intros H. now rewrite !H.
Qed.

Lemma promiseAll_resolved (ready : Component -> Promise) :
  promiseAll ready = Resolved -> allReady ready = true.
Proof.
  unfold promiseAll.
  destruct (firstRejection ready components); [discriminate |].
  now destruct (allReady ready).
Qed.

(** The stretches of the body between two [await]s. *)
Lemma sync_after_barrier :
  match initConnectCallbackAsync config with
  | AwaitAllReady next => sync next = (afterBarrier config, tryTranslations config)
  | _ => False
  end.
Proof. reflexivity. Qed.

Lemma sync_suppressWeather :
  sync (suppressWeather config)
  = (if negb (truthy (showWeather config))
     then [Publish (WeatherMessage All)] else [],
     Return).
Proof.
  unfold suppressWeather. now destruct (negb (truthy (showWeather config))).
Qed.

Lemma sync_after_translations (outcome : Promise) :
  outcome <> Pending ->
  match tryTranslations config with
  | TryAwaitTranslations next handler =>
      sync match outcome with
           | RejectedWith error => handler error
           | _ => next
           end
      = (afterTranslations config outcome, Return)
  | _ => False
  end.
Proof.
  intros Houtcome. unfold tryTranslations, afterTranslations.
  destruct outcome; [contradiction | |];
    cbn [sync]; now rewrite sync_suppressWeather.
Qed.

(** The two moves at the [try] statement: the loader settles, then the
    function takes its turn and runs to its end. *)
Lemma step_loader_settles rdy bar tr eff (outcome : Promise) :
  step {| ready := rdy; barrier := bar; translations := tr;
          body := tryTranslations config; effects := eff |}
       (TranslationsSettle outcome)
  = {| ready := rdy; barrier := bar; translations := settle tr outcome;
       body := tryTranslations config; effects := eff |}.
Proof. reflexivity. Qed.

Lemma step_turn_at_loader rdy bar tr eff :
  tr <> Pending ->
  step {| ready := rdy; barrier := bar; translations := tr;
          body := tryTranslations config; effects := eff |}
       Turn
  = {| ready := rdy; barrier := bar; translations := tr;
       body := Return;
       effects := eff ++ afterTranslations config tr |}.
Proof.
  intros Htr. pose proof (sync_after_translations tr Htr) as Hsync.
  unfold tryTranslations in *. cbn [step resume body translations].
  destruct tr; [contradiction | |]; now rewrite Hsync.
Qed.

Lemma consistent_call (ready0 : Component -> Promise) :
  consistent config (call config ready0).
Proof.
  split; [apply promiseAll_resolved | left; split; reflexivity].
Qed.

Lemma consistent_step (s : State) (ev : Event) :
  consistent config s -> consistent config (step s ev).
Proof.
  unfold consistent. destruct s as [rdy bar tr bdy eff].
  cbn [ready barrier translations body effects].
  intros [Hbarrier Hplace].
  destruct ev as [c outcome | outcome |];
    cbn [step ready barrier translations body effects].
  - (* one of the six promises settles *)
    destruct (rdy c) eqn:Hc;
      cbn [ready barrier translations body effects];
      try (split; assumption).
    assert (bar <> Resolved) as Hpending.
    { intros Hres.
      pose proof (proj1 (allReady_spec _) (Hbarrier Hres) c) as Hc'.
      congruence. }
    split.
    + destruct bar; [| contradiction | discriminate].
      cbn [settle]. destruct outcome; try discriminate;
        (destruct (allReady (<[c:=_]> rdy)); [reflexivity | discriminate]).
    + destruct Hplace as [Hplace | [Hplace | [Hplace | Hplace]]];
        [now left | | |].
      * right; left. destruct Hplace as [(reason & Hb & Hbar) Heff].
        split; [exists reason; split; [exact Hb |] | exact Heff].
        now rewrite Hbar.
      * destruct Hplace as (_ & Hres & _); contradiction.
      * destruct Hplace as (_ & Hres & _); contradiction.
  - (* the loader settles *)
    destruct bdy; cbn [ready barrier translations body effects];
      split; assumption.
  - (* the function takes its turn *)
    destruct Hplace
      as [[-> ->] | [[(reason & -> & Hthrown) ->] | [Hplace | Hplace]]].
    + (* at the barrier *)
      unfold resume. cbn [body barrier initConnectCallbackAsync].
      destruct bar eqn:Hbar.
      * split; [assumption | left; split; reflexivity].
      * change (sync _) with (afterBarrier config, tryTranslations config).
        cbn [ready barrier translations body effects app].
        split; [assumption |]. right; right; left. auto.
      * cbn [ready barrier translations body effects app].
        split; [assumption |]. right; left. split; [eauto | reflexivity].
    + split; [assumption |]. right; left. split; [eauto | reflexivity].
    + (* at the loader *)
      destruct Hplace as (-> & -> & ->).
      unfold resume. cbn [body translations tryTranslations].
      pose proof (sync_after_translations tr) as Hsync.
      unfold tryTranslations in Hsync.
      destruct tr as [| | error].
      * split; [assumption |]. right; right; left.
        cbn [ready barrier translations body effects].
        rewrite app_nil_r. auto.
      * rewrite Hsync by discriminate.
        cbn [ready barrier translations body effects].
        split; [assumption |]. right; right; right.
        split; [reflexivity |]. split; [reflexivity |].
        exists Resolved. split; [discriminate | reflexivity].
      * rewrite Hsync by discriminate.
        cbn [ready barrier translations body effects].
        split; [assumption |]. right; right; right.
        split; [reflexivity |]. split; [reflexivity |].
        exists (RejectedWith error). split; [discriminate | reflexivity].
    + (* returned *)
      destruct Hplace as (-> & Hres & Heffects).
      cbn [resume body ready barrier translations effects].
      rewrite app_nil_r. split; [assumption |]. right; right; right. auto.
Qed.

Lemma consistent_exec (s : State) (schedule : list Event) :
  consistent config s -> consistent config (exec s schedule).
Proof.
  revert s. induction schedule as [| ev schedule IH]; intros s Hs.
  - exact Hs.
  - cbn [exec foldl]. apply IH. now apply consistent_step.
Qed.

Lemma consistent_effects_after_barrier (s : State) :
  consistent config s -> effects s <> [] -> forall c, ready s c = Resolved.
Proof.
  intros [Hbarrier Hplace] Heffects.
  apply (proj1 (allReady_spec _)), Hbarrier.
  destruct Hplace as [[_ H] | [[_ H] | [(_ & H & _) | (_ & H & _)]]];
    [contradiction | contradiction | exact H | exact H].
Qed.

Lemma filter_afterTranslations (outcome : Promise) :
  List.filter isSuppression
    (afterBarrier config ++ afterTranslations config outcome)%list
  = if truthy (showWeather config)
    then [] else [Publish (WeatherMessage All)].
Proof.
  unfold afterBarrier, afterTranslations.
  destruct (truthy (showWeather config)); now destruct outcome.
Qed.

Lemma consistent_suppressions (s : State) :
  consistent config s ->
  suppressions s
  = match body s with
    | Return => if truthy (showWeather config) then 0 else 1
    | _ => 0
    end.
Proof.
  intros [_ Hplace]. unfold suppressions.
  destruct Hplace
    as [[-> ->] | [[(reason & -> & _) ->]
                   | [(-> & _ & ->) | (-> & _ & outcome & _ & ->)]]].
  - reflexivity.
  - reflexivity.
  - reflexivity.
  - rewrite filter_afterTranslations.
    now destruct (truthy (showWeather config)).
Qed.
(** *** The call runs to its end *)

Lemma firstRejection_some (ready : Component -> Promise) cs reason :
  firstRejection ready cs = Some reason ->
  exists c, ready c = RejectedWith reason.
Proof.
  induction cs as [| c cs IH]; [discriminate |]. cbn [firstRejection].
  destruct (ready c) eqn:Hc; try exact IH.
  intros [= ->]. now exists c.
Qed.

Lemma promiseAll_allReady (ready : Component -> Promise) :
  allReady ready = true -> promiseAll ready = Resolved.
Proof.
  intros Hall. unfold promiseAll. rewrite Hall.
  pose proof (proj1 (allReady_spec _) Hall) as Hready.
  unfold components. cbn [firstRejection]. now rewrite !Hready.
Qed.

Lemma barrierFollows_call (ready0 : Component -> Promise) :
  barrierFollows (call config ready0).
Proof.
  split; cbn [call ready barrier].
  - apply promiseAll_allReady.
  - intros reason. unfold promiseAll.
    destruct (firstRejection ready0 components) as [r |] eqn:Hfirst.
    + intros [= ->]. destruct (firstRejection_some _ _ _ Hfirst) as [c Hc].
      now exists c, reason.
    + now destruct (allReady ready0).
Qed.

Lemma barrierFollows_step (s : State) (ev : Event) :
  barrierFollows s -> barrierFollows (step s ev).
Proof.
  destruct s as [rdy bar tr bdy eff]. unfold barrierFollows.
  cbn [ready barrier]. intros [Hopen Hrejected].
  destruct ev as [c outcome | outcome |];
    cbn [step ready barrier translations body effects].
  - destruct (rdy c) eqn:Hc; cbn [ready barrier]; try (split; assumption).
    split.
    + intros Hall.
      pose proof (proj1 (allReady_spec _) Hall) as Hready.
      pose proof (Hready c) as Houtcome. rewrite fn_lookup_insert in Houtcome.
      subst outcome. rewrite Hall.
      destruct bar as [| | reason]; [reflexivity | reflexivity |].
      destruct (Hrejected reason eq_refl) as (c' & reason' & Hc').
      pose proof (Hready c') as Hresolved.
      destruct (decide (c' = c)) as [-> | Hne]; [congruence |].
      rewrite fn_lookup_insert_ne in Hresolved by congruence. congruence.
    + intros reason Hbar.
      destruct bar as [| | reason0]; cbn [settle] in Hbar.
      * exists c. destruct outcome as [| | reason1].
        -- now destruct (allReady (<[c:=Pending]> rdy)).
        -- now destruct (allReady (<[c:=Resolved]> rdy)).
        -- exists reason1. apply fn_lookup_insert.
      * discriminate Hbar.
      * destruct (Hrejected reason0 eq_refl) as (c' & reason' & Hc').
        exists c', reason'.
        destruct (decide (c' = c)) as [-> | Hne]; [congruence |].
        now rewrite fn_lookup_insert_ne by congruence.
  - destruct bdy; cbn [ready barrier]; split; assumption.
  - destruct (resume _) as [done rest]. cbn [ready barrier].
    split; assumption.
Qed.

Lemma barrierFollows_exec (s : State) (schedule : list Event) :
  barrierFollows s -> barrierFollows (exec s schedule).
Proof.
  revert s. induction schedule as [| ev schedule IH]; intros s Hs.
  - exact Hs.
  - cbn [exec foldl]. apply IH. now apply barrierFollows_step.
Qed.

(** Once the six promises are resolved, the function's turn takes it past
    the barrier. *)
Lemma turn_opens_barrier (s : State) :
  consistent config s -> barrierFollows s -> allReady (ready s) = true ->
  body (step s Turn) = tryTranslations config \/ body (step s Turn) = Return.
Proof.
  destruct s as [rdy bar tr bdy eff]. unfold consistent, barrierFollows.
  cbn [ready barrier body effects].
  intros [_ Hplace] [Hopen Hrejected] Hall.
  pose proof (Hopen Hall) as ->.
  destruct Hplace
    as [[-> ->] | [[(reason & _ & Hthrown) _]
                   | [(-> & _ & _) | (-> & _ & _)]]].
  - left. reflexivity.
  - discriminate Hthrown.
  - cbn [step resume body translations tryTranslations].
    pose proof (sync_after_translations tr) as Hsync.
    unfold tryTranslations in Hsync.
    destruct tr as [| | error].
    + now left.
    + right. now rewrite Hsync by discriminate.
    + right. now rewrite Hsync by discriminate.
  - right. reflexivity.
Qed.

Lemma past_barrier_step (s : State) (ev : Event) :
  body s = tryTranslations config \/ body s = Return ->
  body (step s ev) = tryTranslations config \/ body (step s ev) = Return.
Proof.
  destruct s as [rdy bar tr bdy eff]. cbn [body].
  intros [-> | ->]; destruct ev as [c outcome | outcome |];
    cbn [step body ready]; try (destruct (rdy c)); cbn [body]; auto.
  cbn [resume body translations tryTranslations].
  pose proof (sync_after_translations tr) as Hsync.
  unfold tryTranslations in Hsync.
  destruct tr as [| | error].
  - now left.
  - right. now rewrite Hsync by discriminate.
  - right. now rewrite Hsync by discriminate.
Qed.

Lemma past_barrier_exec (s : State) (schedule : list Event) :
  body s = tryTranslations config \/ body s = Return ->
  body (exec s schedule) = tryTranslations config
  \/ body (exec s schedule) = Return.
Proof.
  revert s. induction schedule as [| ev schedule IH]; intros s Hs.
  - exact Hs.
  - cbn [exec foldl]. apply IH. now apply past_barrier_step.
Qed.

(** Once the loader has settled, the function is at the [try] statement
    with a settled loader, or has returned. *)
Lemma loader_settles (s : State) (outcome : Promise) :
  outcome <> Pending ->
  body s = tryTranslations config \/ body s = Return ->
  let s' := step s (TranslationsSettle outcome) in
  (body s' = tryTranslations config /\ translations s' <> Pending)
  \/ body s' = Return.
Proof.
  destruct s as [rdy bar tr bdy eff]. cbn [body].
  intros Houtcome [-> | ->]; [left | right; reflexivity].
  rewrite step_loader_settles. cbn [body translations].
  split; [reflexivity |]. now destruct tr.
Qed.

Lemma loaded_step (s : State) (ev : Event) :
  (body s = tryTranslations config /\ translations s <> Pending)
  \/ body s = Return ->
  (body (step s ev) = tryTranslations config
   /\ translations (step s ev) <> Pending)
  \/ body (step s ev) = Return.
Proof.
  destruct s as [rdy bar tr bdy eff]. cbn [body translations].
  intros [[-> Htr] | ->].
  - destruct ev as [c outcome | outcome |].
    + left. cbn [step ready]. destruct (rdy c); cbn [body translations]; auto.
    + left. rewrite step_loader_settles. cbn [body translations].
      split; [reflexivity |]. now destruct tr.
    + right. now rewrite step_turn_at_loader.
  - right. destruct ev as [c outcome | outcome |];
      cbn [step body ready]; try (destruct (rdy c)); reflexivity.
Qed.

Lemma loaded_exec (s : State) (schedule : list Event) :
  (body s = tryTranslations config /\ translations s <> Pending)
  \/ body s = Return ->
  (body (exec s schedule) = tryTranslations config
   /\ translations (exec s schedule) <> Pending)
  \/ body (exec s schedule) = Return.
Proof.
  revert s. induction schedule as [| ev schedule IH]; intros s Hs.
  - exact Hs.
  - cbn [exec foldl]. apply IH. now apply loaded_step.
Qed.

Lemma loaded_turn (s : State) :
  (body s = tryTranslations config /\ translations s <> Pending)
  \/ body s = Return ->
  body (step s Turn) = Return.
Proof.
  destruct s as [rdy bar tr bdy eff]. cbn [body translations].
  intros [[-> Htr] | ->]; [| reflexivity].
  now rewrite step_turn_at_loader.
Qed.

Lemma returned_exec (s : State) (schedule : list Event) :
  body s = Return -> body (exec s schedule) = Return.
Proof.
  intros Hbody.
  destruct (loaded_exec s schedule (or_intror Hbody)) as [[Htry _] | Hret].
  - exfalso. revert Htry.
    assert (body (exec s schedule) = Return) as ->; [| discriminate].
    revert s Hbody. induction schedule as [| ev schedule IH]; intros s Hbody.
    + exact Hbody.
    + cbn [exec foldl]. apply IH. destruct s as [rdy bar tr bdy eff].
      cbn [body] in Hbody. subst bdy.
      destruct ev as [c outcome | outcome |];
        cbn [step body ready]; try (destruct (rdy c)); reflexivity.
  - exact Hret.
Qed.

(** From a state where the six promises are resolved, every fair schedule
    takes the call to its end. *)
Lemma fair_schedule_returns (s : State) (outcome : Promise)
    (mid mid' post : list Event) :
  consistent config s -> barrierFollows s -> allReady (ready s) = true ->
  outcome <> Pending ->
  body (exec s (fair outcome mid mid' post)) = Return.
Proof.
  intros Hs Hbar Hall Houtcome. unfold fair, exec.
  rewrite !foldl_app. cbn [foldl].
  apply returned_exec, loaded_turn, loaded_exec, loader_settles;
    [exact Houtcome |].
  apply past_barrier_exec. now apply turn_opens_barrier.
Qed.
End Card.

Section CardClaims.
Import Part000.WallClockCard.

Lemma reachable_consistent config ready0 schedule :
  consistent config (exec (call config ready0) schedule).
Proof. apply consistent_exec, consistent_call. Qed.

Lemma translations_failure_is_caught config (s : State) (error : Thrown) :
  body s = tryTranslations config -> translations s = Pending ->
  let s' := exec s [TranslationsSettle (RejectedWith error); Turn] in
  body s' = Return
  /\ effects s'
     = (effects s ++ afterTranslations config (RejectedWith error))%list
  /\ ready s' = ready s.
Proof.
  destruct s as [rdy bar tr bdy eff].
  cbn [ready barrier translations body effects].
  intros -> ->. cbn [exec foldl].
  rewrite step_loader_settles, step_turn_at_loader by discriminate.
  repeat split.
Qed.

Lemma sample_schedule_returns config (outcome : Promise) :
  outcome <> Pending ->
  let done := exec (call config (fun _ => Pending)) (Samples.schedule outcome) in
  body done = Return
  /\ effects done
     = (afterBarrier config ++ afterTranslations config outcome)%list.
Proof.
  intros Houtcome done.
  assert (exists rdy,
            exec (call config (fun _ => Pending))
              (((fun c => ReadySettles c Resolved) <$> components) ++ [Turn])
            = {| ready := rdy; barrier := Resolved; translations := Pending;
                 body := tryTranslations config;
                 effects := afterBarrier config |}) as [rdy Hs].
  { eexists. reflexivity. }
  subst done. unfold Samples.schedule.
  change ([Turn; TranslationsSettle outcome; Turn])
    with ([Turn] ++ [TranslationsSettle outcome; Turn])%list.
  rewrite app_assoc. unfold exec in *. rewrite foldl_app, Hs.
  cbn [foldl].
  rewrite step_loader_settles, step_turn_at_loader
    by (now destruct outcome).
  cbn [body effects settle]. split; reflexivity.
Qed.

(** C2. Along every schedule of the events around a call of
    [initConnectCallbackAsync]: an effect that is the logging
    configuration, the call of the translation loader or a publication is
    in the trace only in states where each of the six [controller.ready]
    promises is resolved; when the loader fails while the function awaits
    it, the function's next turn ends the call normally ([Return], not
    [Throw]), having logged the error after the effects it had, with the
    logging configuration in the trace; and the call is thrown out only
    by the rejection of the barrier, never by the loader. *)
Theorem followups_wait_for_barrier config ready0 schedule :
  let s := exec (call config ready0) schedule in
  (forall e : Effect,
     e ∈ effects s -> isFollowUp e = true -> forall c, ready s c = Resolved)
  /\ (forall error : Thrown,
        body s = tryTranslations config -> translations s = Pending ->
        let s' := exec s [TranslationsSettle (RejectedWith error); Turn] in
        body s' = Return
        /\ effects s'
           = (effects s
              ++ LoggerError "Error loading translations:" error
                 :: (if negb (truthy (showWeather config))
                     then [Publish (WeatherMessage All)] else []))%list
        /\ ConfigureLogger (or_default (logLevel config) "info") ∈ effects s'
        /\ forall c, ready s' c = Resolved)
  /\ (body s = Return ->
      ConfigureLogger (or_default (logLevel config) "info") ∈ effects s
      /\ LoadTranslations ∈ effects s)
  /\ (forall reason : Thrown,
        body s = Throw reason -> barrier s = RejectedWith reason).
Proof.
  intros s.
  pose proof (reachable_consistent config ready0 schedule) as Hs.
  fold s in Hs. split; [| split; [| split]].
  - intros e He _. apply (consistent_effects_after_barrier config s Hs).
    intros Hnil. rewrite Hnil in He. now apply not_elem_of_nil in He.
  - intros error Hbody Htr.
    destruct (translations_failure_is_caught config s error Hbody Htr)
      as (Hret & Heffects & Hready).
    assert (barrier s = Resolved /\ effects s = afterBarrier config)
      as [Hres Hafter].
    { destruct Hs as [_ [[Hb _] | [[(reason & Hb & _) _] | [Hb | [Hb _]]]]];
        rewrite Hbody in Hb; try discriminate Hb. now destruct Hb as (_ & ? & ?). }
    split; [exact Hret |]. split; [exact Heffects |]. split.
    + rewrite Heffects, Hafter. unfold afterBarrier. set_solver.
    + intros c. rewrite Hready.
      apply (proj1 (allReady_spec _)). now apply (proj1 Hs).
  - intros Hbody.
    assert (exists outcome,
              effects s
              = (afterBarrier config ++ afterTranslations config outcome)%list)
      as [outcome ->].
    { destruct Hs as [_ [[Hb _] | [[(reason & Hb & _) _] | [[Hb _] | Hb]]]];
        try (rewrite Hbody in Hb; discriminate Hb).
      destruct Hb as (_ & _ & outcome & _ & Heff). now exists outcome. }
    unfold afterBarrier. split; set_solver.
  - intros reason Hbody.
    destruct Hs as [_ [[Hb _] | [[(reason' & Hb & Hbar) _] | [[Hb _] | [Hb _]]]]];
      rewrite Hbody in Hb; try discriminate Hb.
    injection Hb as ->. exact Hbar.
Qed.

Lemma followups_wait_for_barrier_witness :
  let config := Samples.cardConfig (JsBoolean true) in
  let error := Error "Failed to load translations" in
  let s :=
    exec (call config (fun _ => Pending))
      (((fun c => ReadySettles c Resolved) <$> components) ++ [Turn]) in
  let s' := exec s [TranslationsSettle (RejectedWith error); Turn] in
  (body s = tryTranslations config /\ translations s = Pending)
  /\ body s' = Return
  /\ effects s'
     = [ SetTransportationFontColor (JsString "255, 255, 255");
         SetTransportation JsUndefined;
         ConfigureLogger "debug";
         LoadTranslations;
         LoggerError "Error loading translations:" error ]
  /\ ConfigureLogger "debug" ∈ effects s'
  /\ forall c, ready s' c = Resolved.
Proof.
  intros config error s s'.
  assert (body s = tryTranslations config) as Hbody by reflexivity.
  assert (translations s = Pending) as Htr by reflexivity.
  split; [split; [exact Hbody | exact Htr] |].
  destruct (proj1 (proj2 (followups_wait_for_barrier
                            config (fun _ => Pending)
                            (((fun c => ReadySettles c Resolved)
                                <$> components) ++ [Turn])))
              error Hbody Htr) as (Hret & Heffects & Hlogger & Hready).
  split; [exact Hret |]. split; [exact Heffects |].
  split; [exact Hlogger | exact Hready].
Defined.

Lemma no_publication_when_truthy config (s : State) :
  consistent config s -> truthy (showWeather config) = true ->
  forall message, Publish message ∉ effects s.
Proof.
  intros [_ Hplace] Htruthy message Hin.
  assert (effects s = []
          \/ effects s = afterBarrier config
          \/ exists outcome,
               effects s
               = (afterBarrier config ++ afterTranslations config outcome)%list)
    as Heffects.
  { destruct Hplace
      as [[_ H] | [[_ H] | [(_ & _ & H) | (_ & _ & outcome & _ & H)]]];
      [now left | now left | now (right; left) | right; right].
    now exists outcome. }
  destruct Heffects as [Heff | [Heff | [outcome Heff]]];
    rewrite Heff in Hin; clear Heff.
  - now apply not_elem_of_nil in Hin.
  - unfold afterBarrier in Hin.
    repeat (apply elem_of_cons in Hin as [Hin | Hin]; [discriminate Hin |]).
    now apply not_elem_of_nil in Hin.
  - unfold afterBarrier, afterTranslations in Hin. rewrite Htruthy in Hin.
    destruct outcome; cbn [negb app] in Hin;
      repeat (apply elem_of_cons in Hin as [Hin | Hin]; [discriminate Hin |]);
      now apply not_elem_of_nil in Hin.
Qed.

Lemma publication_when_falsy config (s : State) :
  consistent config s -> truthy (showWeather config) = false ->
  body s = Return ->
  List.filter isSuppression (effects s) = [Publish (WeatherMessage All)].
Proof.
  intros [_ Hplace] Hfalsy Hbody.
  destruct Hplace as [[Hb _] | [[(reason & Hb & _) _] | [[Hb _] | Hb]]];
    try (rewrite Hbody in Hb; discriminate Hb).
  destruct Hb as (_ & _ & outcome & _ & ->).
  now rewrite filter_afterTranslations, Hfalsy.
Qed.

Lemma fair_schedule_publishes config (s : State) (outcome : Promise)
    (mid mid' post : list Event) :
  consistent config s -> barrierFollows s ->
  truthy (showWeather config) = false ->
  (forall c, ready s c = Resolved) -> outcome <> Pending ->
  let done := exec s (fair outcome mid mid' post) in
  body done = Return
  /\ suppressions done = 1
  /\ List.filter isSuppression (effects done)
     = [Publish (WeatherMessage All)].
Proof.
  intros Hs Hbar Hfalsy Hready Houtcome done.
  assert (body done = Return) as Hbody.
  { apply (fair_schedule_returns config); try assumption.
    now apply allReady_spec. }
  pose proof (consistent_exec config s (fair outcome mid mid' post) Hs)
    as Hdone.
  fold done in Hdone.
  split; [exact Hbody |]. split.
  - rewrite (consistent_suppressions config done Hdone), Hbody.
    now rewrite Hfalsy.
  - now apply (publication_when_falsy config done Hdone).
Qed.

Lemma reachable_barrierFollows config ready0 schedule :
  barrierFollows (exec (call config ready0) schedule).
Proof. apply barrierFollows_exec, barrierFollows_call. Qed.




End CardClaims.

(** * Further properties of the adapter *)

Lemma prefix_app (p s : string) : String.prefix p (p ++ s) = true.
Proof.
  induction p as [| c p IH]; [now destruct s |].
  simpl. destruct (Ascii.ascii_dec c c); [exact IH | contradiction].
Qed.

Section FetchRequests.
Context {WeatherData : Type}.
Variable transformResponse : PirateWeatherResponse -> string -> WeatherData.
Local Abbreviation fetchWeatherAsync :=
  (Adapter.fetchWeatherAsync transformResponse).

Lemma validated_or_not config :
  (truthy (apiKey config) = true /\ truthy (latitude config) = true
   /\ truthy (longitude config) = true)
  \/ exists message, fetchWeatherAsync config = Rejected (Error message).
Proof.
  destruct (truthy (apiKey config)) eqn:Hk;
    [| right; eexists; now apply rejected_without_apiKey].
  destruct (truthy (latitude config)) eqn:Hla;
    [| right; eexists; apply rejected_without_coordinates; auto].
  destruct (truthy (longitude config)) eqn:Hlo;
    [| right; eexists; apply rejected_without_coordinates; auto].
  now left.
Qed.

(** X1. A call issues at most one request; whether it does, and which one,
    does not depend on what the network answers; and it issues one exactly
    when the key and both coordinates of the configuration are truthy. *)
Theorem fetchWeatherAsync_one_request config (net : Network) :
  length (requests net (fetchWeatherAsync config)) <= 1
  /\ (forall net' : Network,
        requests net' (fetchWeatherAsync config)
        = requests net (fetchWeatherAsync config))
  /\ (requests net (fetchWeatherAsync config) <> []
      <-> truthy (apiKey config) = true
          /\ truthy (latitude config) = true
          /\ truthy (longitude config) = true).
Proof.
  destruct (validated_or_not config) as [(Hk & Hla & Hlo) | [message Hrej]].
  - destruct (validated_fetches transformResponse config Hk Hla Hlo)
      as [url Hcall].
    assert (forall n : Network, requests n (fetchWeatherAsync config) = [url])
      as Hone.
    { intros n. rewrite Hcall. unfold requests. cbn [run].
      now destruct (Adapter.tryBlock _ _ _). }
    rewrite Hone. split; [cbn; lia |]. split.
    + intros net'. apply Hone.
    + split; [auto | discriminate].
  - rewrite Hrej. cbn. split; [lia |]. split; [reflexivity |].
    split; [contradiction |]. intros (Hk & Hla & Hlo).
    destruct (validated_fetches transformResponse config Hk Hla Hlo)
      as [url Hcall].
    rewrite Hcall in Hrej. discriminate Hrej.
Qed.

Lemma mapUnits_cases (u : string) :
  Adapter.mapUnits "imperial" = Val "us"
  /\ (u <> "imperial" -> u ∉ Object_prototype -> Adapter.mapUnits u = Val "si").
Proof.
  split; [reflexivity |]. intros Himperial Hproto.
  unfold Adapter.mapUnits, lookup_or.
  destruct (Adapter.unitsMap !! u) as [v |] eqn:Hu.
  - unfold Adapter.unitsMap in Hu.
    apply elem_of_list_to_map_2 in Hu.
    repeat (apply elem_of_cons in Hu as [Hu | Hu];
            [injection Hu as -> ->; first [contradiction | reflexivity] |]).
    now apply not_elem_of_nil in Hu.
  - now rewrite bool_decide_eq_false_2.
Qed.

(** X2. The units the request asks for: "us" when the configuration says
    "imperial"; "si" when it says "metric", says nothing or says the empty
    string, and for any other word that is not a name inherited from
    [Object.prototype]. *)
Theorem fetchWeatherAsync_request_units config (net : Network) (url : Url) :
  requests net (fetchWeatherAsync config) = [url] ->
  (units config = Some "imperial" -> url_units url = Val "us")
  /\ (units config = None \/ units config = Some ""
      \/ units config = Some "metric" ->
      url_units url = Val "si")
  /\ (forall u,
        units config = Some u -> u <> "imperial" -> u ∉ Object_prototype ->
        url_units url = Val "si").
Proof.
  intros Hrequests.
  assert (url_units url
          = Adapter.mapUnits (or_default (units config) "metric")) as ->.
  { destruct (validated_or_not config) as [(Hk & Hla & Hlo) | [message Hrej]].
    - unfold Adapter.fetchWeatherAsync in Hrequests.
      rewrite Hk, Hla, Hlo in Hrequests. cbn [negb orb] in Hrequests.
      unfold requests in Hrequests. cbn [run] in Hrequests.
      destruct (run net _) in Hrequests. cbn in Hrequests.
      now injection Hrequests as <-.
    - rewrite Hrej in Hrequests. discriminate Hrequests. }
  split; [| split].
  - now intros ->.
  - intros [-> | [-> | ->]]; reflexivity.
  - intros u -> Himperial Hproto. cbn [or_default].
    destruct (truthy u) eqn:Hu.
    + now apply mapUnits_cases.
    + reflexivity.
Qed.

(** X3. What a call rejects with is always an [Error] with a message: one
    of the two validation messages, or a message that starts with "Failed to
    fetch Pirate Weather data". *)
Theorem fetchWeatherAsync_rejects_with_Error config (net : Network) e :
  settles net (fetchWeatherAsync config) = inl e ->
  exists message,
    e = Error message
    /\ (message = "Pirate Weather API key is required"
        \/ message = "Latitude and longitude are required"
        \/ String.prefix "Failed to fetch Pirate Weather data" message = true).
Proof.
  intros Hsettles.
  destruct (validated_or_not config) as [(Hk & Hla & Hlo) | [message Hrej]].
  - destruct (validated_fetches transformResponse config Hk Hla Hlo)
      as [url Hcall].
    rewrite Hcall in Hsettles. unfold settles in Hsettles.
    cbn [run] in Hsettles.
    destruct (Adapter.tryBlock _ _ _) as [error | weather];
      cbn in Hsettles; [| discriminate Hsettles].
    injection Hsettles as <-.
    destruct error as [message |]; cbn [Adapter.catchBlock].
    + eexists. split; [reflexivity |]. right; right.
      apply (prefix_app "Failed to fetch Pirate Weather data").
    + eexists. split; [reflexivity |]. right; right. reflexivity.
  - destruct (truthy (apiKey config)) eqn:Hk.
    + assert (fetchWeatherAsync config
              = Rejected (Error "Latitude and longitude are required")) as Hr.
      { apply rejected_without_coordinates; [exact Hk |].
        destruct (truthy (latitude config)) eqn:Hla; [| now left].
        destruct (truthy (longitude config)) eqn:Hlo; [| now right].
        destruct (validated_fetches transformResponse config Hk Hla Hlo)
          as [url Hcall].
        rewrite Hcall in Hrej. discriminate Hrej. }
      rewrite Hr in Hsettles. injection Hsettles as <-. eauto.
    + rewrite (rejected_without_apiKey transformResponse config Hk) in Hsettles.
      injection Hsettles as <-. eauto.
Qed.
End FetchRequests.

Lemma fetchWeatherAsync_request_units_witness :
  let config := {| apiKey := Some "0123456789abcdef";
                   latitude := Some 50.0755%Q; longitude := Some 14.4378%Q;
                   units := Some "imperial" |} in
  let net : Network := fun _ => inr Samples.success in
  exists url,
    requests net (PirateWeatherProvider.fetchWeatherAsync config) = [url]
    /\ url_units url = Val "us".
Proof.
  intros config net. eexists. split; [reflexivity |].
  apply (fetchWeatherAsync_request_units
           (fun data _ => PirateWeatherProvider.transformResponse data)
           config net); reflexivity.
Defined.

Lemma fetchWeatherAsync_rejects_with_Error_witness :
  let net : Network := fun _ => inr Samples.unreadable in
  exists e message,
    settles net (Part000.PirateWeatherProvider.fetchWeatherAsync Samples.config)
    = inl e
    /\ e = Error message
    /\ String.prefix "Failed to fetch Pirate Weather data" message = true.
Proof.
  intros net.
  destruct (fetchWeatherAsync_rejects_with_Error
              Part000.PirateWeatherProvider.transformResponse
              Samples.config net
              (Error "Failed to fetch Pirate Weather data: Unexpected end of JSON input")
              eq_refl) as (message & He & Hmessage).
  exists (Error "Failed to fetch Pirate Weather data: Unexpected end of JSON input"),
    message.
  split; [reflexivity |]. split; [exact He |].
  injection He as <-. reflexivity.
Defined.

(** X4. What a call resolves or rejects with, once the configuration is
    valid, is decided by the answer of the network alone: two valid
    configurations whose requests get the same answer settle alike, whatever
    their keys, coordinates and units.  The units reach the vendor in the
    request and nowhere else. *)
Theorem fetchWeatherAsync_settles_by_answer
    (config config' : WeatherProviderConfig) (net net' : Network)
    (url url' : Url) :
  requests net (PirateWeatherProvider.fetchWeatherAsync config) = [url] ->
  requests net' (PirateWeatherProvider.fetchWeatherAsync config') = [url'] ->
  net url = net' url' ->
  settles net (PirateWeatherProvider.fetchWeatherAsync config)
  = settles net' (PirateWeatherProvider.fetchWeatherAsync config')
  /\ settles net (Part000.PirateWeatherProvider.fetchWeatherAsync config)
     = settles net' (Part000.PirateWeatherProvider.fetchWeatherAsync config').
Proof.
  intros Hrequests Hrequests' Hanswer.
  assert (forall c (n : Network) u,
            requests n (PirateWeatherProvider.fetchWeatherAsync c) = [u] ->
            settles n (PirateWeatherProvider.fetchWeatherAsync c)
            = match Adapter.tryBlock
                      (fun data _ => PirateWeatherProvider.transformResponse data)
                      c (n u) with
              | inr weather => inr weather
              | inl error => inl (Adapter.catchBlock error)
              end
            /\ settles n (Part000.PirateWeatherProvider.fetchWeatherAsync c)
               = match Adapter.tryBlock
                         Part000.PirateWeatherProvider.transformResponse
                         c (n u) with
                 | inr weather => inr weather
                 | inl error => inl (Adapter.catchBlock error)
                 end) as Hsettle.
  { intros c n u Hu.
    unfold PirateWeatherProvider.fetchWeatherAsync,
      Part000.PirateWeatherProvider.fetchWeatherAsync in *.
    destruct (validated_or_not
                (fun data _ => PirateWeatherProvider.transformResponse data) c)
      as [(Hk & Hla & Hlo) | [message Hrej]];
      [| rewrite Hrej in Hu; discriminate Hu].
    unfold Adapter.fetchWeatherAsync in *. rewrite Hk, Hla, Hlo in *.
    cbn [negb orb] in *. unfold requests, settles in *. cbn [run] in *.
    destruct (Adapter.tryBlock (fun data _ => _) c _) eqn:H1 in Hu;
      cbn in Hu; injection Hu as <-; rewrite H1;
      destruct (Adapter.tryBlock Part000.PirateWeatherProvider.transformResponse
                  c _); split; reflexivity. }
  destruct (Hsettle config net url Hrequests) as [-> ->].
  destruct (Hsettle config' net' url' Hrequests') as [-> ->].
  rewrite <- Hanswer. unfold Adapter.tryBlock.
  destruct (net url) as [error | response]; [split; reflexivity |].
  destruct (ok response); [| split; reflexivity].
  destruct (json response); split; reflexivity.
Qed.

Lemma fetchWeatherAsync_settles_by_answer_witness :
  let metric := Samples.config in
  let imperial := {| apiKey := Some "fedcba9876543210";
                     latitude := Some (-33.8688)%Q;
                     longitude := Some 151.2093%Q;
                     units := Some "imperial" |} in
  let net : Network := fun _ => inr Samples.success in
  settles net (PirateWeatherProvider.fetchWeatherAsync metric)
  = settles net (PirateWeatherProvider.fetchWeatherAsync imperial)
  /\ settles net (Part000.PirateWeatherProvider.fetchWeatherAsync metric)
     = settles net (Part000.PirateWeatherProvider.fetchWeatherAsync imperial).
Proof.
  intros metric imperial net.
  eapply (fetchWeatherAsync_settles_by_answer metric imperial net net);
    reflexivity.
Defined.

(** ** Further properties of the normalization *)

Lemma truthy_number (n : number) : truthy n = true <-> ~ (n == 0)%Q.
Proof.
  unfold truthy, number_truthy. rewrite negb_true_iff.
  rewrite <- Qeq_bool_iff. now destruct (Qeq_bool n 0).
Qed.

Lemma or_number (a b : number) :
  ((a == 0)%Q -> or a b = b) /\ (~ (a == 0)%Q -> or a b = a).
Proof.
  unfold or. split; intros Ha.
  - now rewrite (truthy_zero a Ha).
  - now rewrite (proj2 (truthy_number a) Ha).
Qed.

Lemma Math_round_monotone (x y : number) :
  (x <= y)%Q -> (Math_round x <= Math_round y)%Q.
Proof.
  intros Hxy. unfold Math_round. rewrite <- Zle_Qle.
  apply Qfloor_resp_le. number_lra.
Qed.

(** X5. A day's maximum and minimum of exactly 0 count as missing: the
    normalized maximum is taken from [temperatureHigh] when
    [temperatureMax] is 0 and from [temperatureMax] otherwise, and likewise
    the minimum from [temperatureLow] or [temperatureMin]; the copy in
    [src/weather-providers] then rounds, the other copy does not. *)
Theorem transformDailyWeather_temperature_fallback (day : PirateWeatherDaily) :
  let d := PirateWeatherProvider.transformDailyWeather day in
  let d' := Part000.PirateWeatherProvider.transformDailyWeather day in
  ((temperatureMax day == 0)%Q ->
     d_temperatureMax d = Math_round (temperatureHigh day)
     /\ d_temperatureMax d' = temperatureHigh day)
  /\ (~ (temperatureMax day == 0)%Q ->
      d_temperatureMax d = Math_round (temperatureMax day)
      /\ d_temperatureMax d' = temperatureMax day)
  /\ ((temperatureMin day == 0)%Q ->
      d_temperatureMin d = Math_round (temperatureLow day)
      /\ d_temperatureMin d' = temperatureLow day)
  /\ (~ (temperatureMin day == 0)%Q ->
      d_temperatureMin d = Math_round (temperatureMin day)
      /\ d_temperatureMin d' = temperatureMin day).
Proof.
  cbn.
  destruct (or_number (temperatureMax day) (temperatureHigh day)) as [H0 H1].
  destruct (or_number (temperatureMin day) (temperatureLow day)) as [H2 H3].
  split; [intros Hz; now rewrite (H0 Hz) |].
  split; [intros Hz; now rewrite (H1 Hz) |].
  split; [intros Hz; now rewrite (H2 Hz) |].
  intros Hz; now rewrite (H3 Hz).
Qed.

Lemma transformDailyWeather_temperature_fallback_witness :
  let day :=
    {| time := 1700000000%Q; summary := "Snow"; icon := "snow";
       temperatureHigh := (-1.4)%Q; temperatureLow := (-7.8)%Q;
       temperatureMax := 0%Q; temperatureMin := (-8.2)%Q;
       apparentTemperatureHigh := (-4)%Q; apparentTemperatureLow := (-12)%Q;
       humidity := 0.9%Q; pressure := 1002%Q; windSpeed := 5%Q;
       windGust := None; windBearing := 10%Q; cloudCover := 1%Q;
       uvIndex := 0%Q |} in
  (temperatureMax day == 0)%Q
  /\ d_temperatureMax (PirateWeatherProvider.transformDailyWeather day)
     = (-1)%Q
  /\ d_temperatureMax (Part000.PirateWeatherProvider.transformDailyWeather day)
     = (-1.4)%Q.
Proof.
  intros day.
  assert (temperatureMax day == 0)%Q as Hzero by reflexivity.
  split; [exact Hzero |].
  exact (proj1 (transformDailyWeather_temperature_fallback day) Hzero).
Defined.

(** X6. Rounding keeps the order of a day's temperatures: when the vendor's
    minimum and maximum are both non-zero and the minimum is not above the
    maximum, the same holds of the normalized ones, in both copies. *)
Theorem transformDailyWeather_min_le_max (day : PirateWeatherDaily) :
  ~ (temperatureMin day == 0)%Q -> ~ (temperatureMax day == 0)%Q ->
  (temperatureMin day <= temperatureMax day)%Q ->
  (d_temperatureMin (PirateWeatherProvider.transformDailyWeather day)
   <= d_temperatureMax (PirateWeatherProvider.transformDailyWeather day))%Q
  /\ (d_temperatureMin (Part000.PirateWeatherProvider.transformDailyWeather day)
      <= d_temperatureMax
           (Part000.PirateWeatherProvider.transformDailyWeather day))%Q.
Proof.
  intros Hmin Hmax Hle. cbn.
  rewrite (proj2 (or_number (temperatureMax day) (temperatureHigh day)) Hmax).
  rewrite (proj2 (or_number (temperatureMin day) (temperatureLow day)) Hmin).
  split; [now apply Math_round_monotone | exact Hle].
Qed.

Lemma transformDailyWeather_min_le_max_witness :
  let day := Samples.day 1700000000%Q 0.5%Q 0.5%Q in
  (d_temperatureMin (PirateWeatherProvider.transformDailyWeather day)
   <= d_temperatureMax (PirateWeatherProvider.transformDailyWeather day))%Q
  /\ (d_temperatureMin (Part000.PirateWeatherProvider.transformDailyWeather day)
      <= d_temperatureMax
           (Part000.PirateWeatherProvider.transformDailyWeather day))%Q.
Proof.
  intros day.
  apply (transformDailyWeather_min_le_max day);
    vm_compute; discriminate.
Defined.

Lemma Qfloor_unique (x : Q) (n : Z) :
  (inject_Z n <= x)%Q -> (x < inject_Z n + 1)%Q -> Qfloor x = n.
Proof.
  intros Hle Hlt.
  pose proof (Qfloor_le x) as Hfl. pose proof (Qlt_floor x) as Hfu.
  assert (inject_Z n < inject_Z (Qfloor x + 1))%Q as H1 by number_lra.
  assert (inject_Z (Qfloor x) < inject_Z (n + 1))%Q as H2 by number_lra.
  rewrite <- Zlt_Qlt in H1, H2. lia.
Qed.

Lemma Math_round_shift (x : number) (m : Z) :
  Math_round (x + inject_Z m)%Q = inject_Z (Qfloor (x + (1 # 2)) + m).
Proof.
  unfold Math_round. f_equal. apply Qfloor_unique.
  - pose proof (Qfloor_le (x + (1 # 2))). number_lra.
  - pose proof (Qlt_floor (x + (1 # 2))). number_lra.
Qed.

(** X7. Turning by whole sectors: for a bearing from 0 upwards in sector
    [s], the bearing [m] sectors further ([m] times 22.5 degrees) reads the
    compass point [m] places further round the sixteen.  So a full turn of
    360 degrees does not change the reading, and the centre of sector [k],
    22.5 times [k], reads the point [k] modulo 16. *)
Theorem bearingToDirection_turn (bearing : number) (m : Z) :
  (0 <= bearing)%Q -> (0 <= m)%Z ->
  (exists s : Z,
     (0 <= s)%Z
     /\ Adapter.bearingToDirection bearing
        = Adapter.directions !! Z.to_nat (s mod 16)
     /\ Adapter.bearingToDirection (bearing + 22.5 * inject_Z m)%Q
        = Adapter.directions !! Z.to_nat ((s + m) mod 16))
  /\ Adapter.bearingToDirection (bearing + 360)%Q
     = Adapter.bearingToDirection bearing
  /\ Adapter.bearingToDirection (22.5 * inject_Z m)%Q
     = Adapter.directions !! Z.to_nat (m mod 16).
Proof.
  intros Hbearing Hm.
  assert (forall b (k : Z),
            (0 <= b)%Q -> (0 <= k)%Z ->
            (0 <= Qfloor (b / 22.5 + (1 # 2)))%Z
            /\ Adapter.bearingToDirection (b + 22.5 * inject_Z k)%Q
               = Adapter.directions
                   !! Z.to_nat ((Qfloor (b / 22.5 + (1 # 2)) + k) mod 16))
    as Hturn.
  { intros b k Hb Hk.
    assert (0 <= b / 22.5)%Q as Hquot.
    { apply Qle_shift_div_l; [reflexivity | number_lra]. }
    assert (0 <= Qfloor (b / 22.5 + (1 # 2)))%Z as Hs.
    { pose proof (Qlt_floor (b / 22.5 + (1 # 2))) as Hlt.
      assert (inject_Z 0 < inject_Z (Qfloor (b / 22.5 + (1 # 2)) + 1))%Q as H
        by number_lra.
      rewrite <- Zlt_Qlt in H. lia. }
    split; [exact Hs |].
    apply bearingToDirection_sector; [| lia].
    rewrite <- Math_round_shift. unfold Math_round. f_equal.
    apply Qfloor_comp. unfold number in *. field. }
  split; [| split].
  - exists (Qfloor (bearing / 22.5 + (1 # 2))).
    destruct (Hturn bearing m Hbearing Hm) as [Hs Hshift].
    split; [exact Hs |]. split; [| exact Hshift].
    now apply bearingToDirection_sector.
  - destruct (Hturn bearing 16%Z Hbearing) as [Hs Hshift]; [lia |].
    assert (bearing + 360 == bearing + 22.5 * inject_Z 16)%Q as Hfull.
    { unfold number in *. change (inject_Z 16) with 16%Q. ring. }
    transitivity (Adapter.bearingToDirection (bearing + 22.5 * inject_Z 16)%Q).
    { unfold Adapter.bearingToDirection, Math_round. do 3 f_equal.
      apply Qfloor_comp. now rewrite Hfull. }
    rewrite Hshift, (bearingToDirection_sector bearing _ eq_refl Hs).
    do 2 f_equal. now rewrite <- Zplus_mod_idemp_r, Z.add_0_r.
  - destruct (Hturn 0%Q m) as [_ Hshift]; [discriminate | exact Hm |].
    transitivity (Adapter.bearingToDirection (0 + 22.5 * inject_Z m)%Q).
    { unfold Adapter.bearingToDirection, Math_round. do 3 f_equal.
      apply Qfloor_comp. unfold number. field. }
    exact Hshift.
Qed.

Lemma bearingToDirection_turn_witness :
  Adapter.bearingToDirection (100 + 360)%Q = Adapter.bearingToDirection 100%Q
  /\ Adapter.bearingToDirection (22.5 * inject_Z 24)%Q = Some "S".
Proof.
  assert (0 <= 100)%Q as Hbearing by (vm_compute; discriminate).
  assert (0 <= 24)%Z as Hm by lia.
  destruct (bearingToDirection_turn 100%Q 24 Hbearing Hm)
    as (_ & Hfull & Hcentre).
  split; [exact Hfull | exact Hcentre].
Defined.

(** X8. The whole-number fields of the copy in [src/weather-providers],
    those the code rounds as they come: the temperature, the feels-like
    temperature and the pressure of the current conditions and the
    pressure of a day are whole numbers, the nearest to the vendor's value
    (within half a unit of it, a tie going up). *)
Theorem rounded_copy_precision (data : PirateWeatherResponse)
    (day : PirateWeatherDaily) :
  let now := currently data in
  let c := PirateWeatherProvider.current
             (PirateWeatherProvider.transformResponse data) in
  let d := PirateWeatherProvider.transformDailyWeather day in
  (exists n : Z,
     PirateWeatherProvider.temperature c = inject_Z n
     /\ (inject_Z n - (1 # 2) <= c_temperature now)%Q
     /\ (c_temperature now < inject_Z n + (1 # 2))%Q)
  /\ (exists n : Z,
        PirateWeatherProvider.feelsLike c = inject_Z n
        /\ (inject_Z n - (1 # 2) <= c_apparentTemperature now)%Q
        /\ (c_apparentTemperature now < inject_Z n + (1 # 2))%Q)
  /\ (exists n : Z,
        PirateWeatherProvider.cur_pressure c = inject_Z n
        /\ (inject_Z n - (1 # 2) <= c_pressure now)%Q
        /\ (c_pressure now < inject_Z n + (1 # 2))%Q)
  /\ (exists n : Z,
        d_pressure d = inject_Z n
        /\ (inject_Z n - (1 # 2) <= pressure day)%Q
        /\ (pressure day < inject_Z n + (1 # 2))%Q).
Proof.
  cbn.
  split; [apply Math_round_nearest |].
  split; [apply Math_round_nearest |].
  split; apply Math_round_nearest.
Qed.

(** X9. The gust of a day: in the copy in [src/weather-providers] it is
    undefined exactly when the vendor gives none or gives 0, and otherwise
    the vendor's gust rounded to tenths; the other copy hands the vendor's
    field on as it is, 0 included. *)
Theorem transformDailyWeather_windGust (day : PirateWeatherDaily) :
  (d_windGust (PirateWeatherProvider.transformDailyWeather day) = None
   <-> windGust day = None
       \/ exists gust, windGust day = Some gust /\ (gust == 0)%Q)
  /\ (forall gust,
        windGust day = Some gust -> ~ (gust == 0)%Q ->
        d_windGust (PirateWeatherProvider.transformDailyWeather day)
        = Some (Math_round (gust * 10) / 10)%Q)
  /\ d_windGust (Part000.PirateWeatherProvider.transformDailyWeather day)
     = windGust day.
Proof.
  cbn. split; [| split; [| reflexivity]].
  - destruct (windGust day) as [gust |]; [| split; auto].
    destruct (truthy gust) eqn:Hgust.
    + apply truthy_number in Hgust. split; [discriminate |].
      intros [H | (g & [= <-] & Hg)]; [discriminate H | contradiction].
    + split; [| reflexivity]. intros _. right. exists gust.
      split; [reflexivity |].
      apply Qeq_bool_iff. unfold truthy, number_truthy in Hgust.
      now apply negb_false_iff in Hgust.
  - intros gust -> Hgust. now rewrite (proj2 (truthy_number gust) Hgust).
Qed.

Lemma transformDailyWeather_windGust_witness :
  let day := Samples.day 1700000000%Q 0.5%Q 0.5%Q in
  windGust day = Some 7.9%Q
  /\ ~ (7.9 == 0)%Q
  /\ d_windGust (PirateWeatherProvider.transformDailyWeather day)
     = Some (Math_round (7.9 * 10) / 10)%Q.
Proof.
  intros day.
  assert (windGust day = Some 7.9%Q) as Hgust by reflexivity.
  assert (~ (7.9 == 0)%Q) as Hnonzero by (intros H; discriminate H).
  split; [exact Hgust |]. split; [exact Hnonzero |].
  exact (proj1 (proj2 (transformDailyWeather_windGust day))
           7.9%Q Hgust Hnonzero).
Defined.

(** ** Further properties of the two tables *)

Lemma tables_have_the_same_codes :
  dom PirateWeatherProvider.iconMap = dom PirateWeatherProvider.iconMapping
  /\ dom Part000.PirateWeatherProvider.iconMap
     = dom PirateWeatherProvider.iconMap
  /\ dom Part000.PirateWeatherProvider.iconMapping
     = dom PirateWeatherProvider.iconMap.
Proof.
  repeat split; refine (bool_decide_unpack _ _); vm_compute; exact I.
Qed.

Lemma lookup_same_dom {A B} (m1 : gmap string A) (m2 : gmap string B) key :
  dom m1 = dom m2 -> (is_Some (m1 !! key) <-> is_Some (m2 !! key)).
Proof. intros Hdom. now rewrite <- !elem_of_dom, Hdom. Qed.

Lemma iconMap_values :
  map_Forall (fun _ w => w ∈ [ClearSky; Rain; Snow; Clouds; Mist])
    PirateWeatherProvider.iconMap
  /\ map_Forall
       (fun _ w => w ∈ [Clear; Rain; Snow; Wind; Fog; Clouds; Thunderstorm;
                        Extreme])
       Part000.PirateWeatherProvider.iconMap.
Proof. split; refine (bool_decide_unpack _ _); vm_compute; exact I. Qed.

Lemma iconMap_codes_not_inherited :
  map_Forall (fun icon _ => icon ∉ Object_prototype)
    PirateWeatherProvider.iconMap
  /\ map_Forall (fun icon _ => icon ∉ Object_prototype)
       Part000.PirateWeatherProvider.iconMap.
Proof. split; refine (bool_decide_unpack _ _); vm_compute; exact I. Qed.

(** X10. The four tables have the same thirteen codes: a code has its own
    condition exactly when it has its own icon, in either copy, and the two
    copies fall back to [Weather.All] on the same codes, namely those that
    are in no table and are not inherited names. *)
Theorem tables_share_their_codes (icon : string) :
  (is_Some (PirateWeatherProvider.iconMap !! icon)
   <-> is_Some (PirateWeatherProvider.iconMapping !! icon))
  /\ (is_Some (PirateWeatherProvider.iconMap !! icon)
      <-> is_Some (Part000.PirateWeatherProvider.iconMap !! icon))
  /\ (is_Some (PirateWeatherProvider.iconMap !! icon)
      <-> is_Some (Part000.PirateWeatherProvider.iconMapping !! icon))
  /\ (PirateWeatherProvider.mapIconToCondition icon = Val All
      <-> PirateWeatherProvider.iconMap !! icon = None
          /\ icon ∉ Object_prototype)
  /\ (PirateWeatherProvider.mapIconToCondition icon = Val All
      <-> Part000.PirateWeatherProvider.mapIconToCondition icon = Val All).
Proof.
  destruct tables_have_the_same_codes as (H1 & H2 & H3).
  destruct iconMap_values as [Hvalues Hvalues'].
  assert (forall (table : gmap string Weather) (others : list Weather),
            map_Forall (fun _ w => w ∈ others) table -> All ∉ others ->
            lookup_or table icon All = Val All
            <-> table !! icon = None /\ icon ∉ Object_prototype) as Hfall.
  { intros table others Hall Hnot. unfold lookup_or.
    destruct (table !! icon) as [w |] eqn:Hw.
    - cbn. split; [| intros [[=] _]].
      intros [= ->]. exfalso. apply Hnot. exact (Hall icon All Hw).
    - destruct (bool_decide (icon ∈ Object_prototype)) eqn:Hp.
      + apply bool_decide_eq_true_1 in Hp. split; [discriminate |].
        now intros [_ ?].
      + apply bool_decide_eq_false_1 in Hp. now split. }
  split; [now apply lookup_same_dom |].
  split; [now apply lookup_same_dom |].
  split; [now apply lookup_same_dom |].
  assert (PirateWeatherProvider.mapIconToCondition icon = Val All
          <-> PirateWeatherProvider.iconMap !! icon = None
              /\ icon ∉ Object_prototype) as Hnamed.
  { apply (Hfall _ _ Hvalues). vm_compute. intros H.
    repeat (apply elem_of_cons in H as [H | H]; [discriminate H |]).
    now apply not_elem_of_nil in H. }
  split; [exact Hnamed |].
  rewrite Hnamed.
  unfold Part000.PirateWeatherProvider.mapIconToCondition.
  rewrite (Hfall _ _ Hvalues').
  - assert (PirateWeatherProvider.iconMap !! icon = None
            <-> Part000.PirateWeatherProvider.iconMap !! icon = None) as ->.
    { rewrite !eq_None_not_Some.
      now rewrite (lookup_same_dom _ _ icon (eq_sym H2)). }
    reflexivity.
  - intros H.
    repeat (apply elem_of_cons in H as [H | H]; [discriminate H |]).
    now apply not_elem_of_nil in H.
Qed.

(** X11. What [mapIconToCondition] can return.  For a code that is not a
    name inherited from [Object.prototype], the copy in
    [src/weather-providers] gives [All], [ClearSky], [Rain], [Snow],
    [Clouds] or [Mist], and the other copy [All], [Clear], [Rain], [Snow],
    [Wind], [Fog], [Clouds], [Thunderstorm] or [Extreme].  For an inherited
    name, and only for one, both copies return the inherited member
    itself, which is no member of [Weather]. *)
Theorem mapIconToCondition_range (icon : string) :
  match PirateWeatherProvider.mapIconToCondition icon with
  | Val w =>
      w ∈ [All; ClearSky; Rain; Snow; Clouds; Mist]
      /\ icon ∉ Object_prototype
  | Builtin name => name = icon /\ icon ∈ Object_prototype
  end
  /\ match Part000.PirateWeatherProvider.mapIconToCondition icon with
     | Val w =>
         w ∈ [All; Clear; Rain; Snow; Wind; Fog; Clouds; Thunderstorm;
              Extreme]
         /\ icon ∉ Object_prototype
     | Builtin name => name = icon /\ icon ∈ Object_prototype
     end.
Proof.
  destruct iconMap_values as [Hvalues Hvalues'].
  destruct iconMap_codes_not_inherited as [Hout Hout'].
  split;
    unfold PirateWeatherProvider.mapIconToCondition,
      Part000.PirateWeatherProvider.mapIconToCondition, lookup_or;
    [destruct (PirateWeatherProvider.iconMap !! icon) as [v |] eqn:Hv
    | destruct (Part000.PirateWeatherProvider.iconMap !! icon) as [v |] eqn:Hv].
  - split; [| exact (Hout icon v Hv)].
    destruct (truthy v); [right; exact (Hvalues icon v Hv) | now left].
  - case_bool_decide as Hin; [now split |]. split; [now left | exact Hin].
  - split; [| exact (Hout' icon v Hv)].
    destruct (truthy v); [right; exact (Hvalues' icon v Hv) | now left].
  - case_bool_decide as Hin; [now split |]. split; [now left | exact Hin].
Qed.

Lemma iconMapping_shapes :
  map_Forall (fun _ code => String.length code = 3)
    PirateWeatherProvider.iconMapping
  /\ map_Forall
       (fun _ url =>
          String.prefix (Part000.PirateWeatherProvider.baseIconUrl ++ "/") url
          = true)
       Part000.PirateWeatherProvider.iconMapping.
Proof. split; refine (bool_decide_unpack _ _); vm_compute; exact I. Qed.

(** X12. The icon of a code that is not a name inherited from
    [Object.prototype].  In [src/weather-providers] the URL is
    "https://openweathermap.org/img/wn/", a code of three characters and
    "@2x.png", and a code of no table gets the icon of "clear-day"; in the
    other copy the URL is under [baseIconUrl], and a code of no table gets
    the icon of "cloudy".  (For an inherited name the first copy puts the
    text of the inherited member in the URL and the other copy returns the
    member itself; these names are left out here.) *)
Theorem getIconUrl_shape (icon : string) :
  icon ∉ Object_prototype ->
  (exists code,
     String.length code = 3
     /\ PirateWeatherProvider.getIconUrl icon
        = Val ("https://openweathermap.org/img/wn/" ++ code ++ "@2x.png"))
  /\ (exists url,
        Part000.PirateWeatherProvider.getIconUrl icon = Val url
        /\ String.prefix (Part000.PirateWeatherProvider.baseIconUrl ++ "/")
             url
           = true)
  /\ (PirateWeatherProvider.iconMapping !! icon = None ->
      PirateWeatherProvider.getIconUrl icon
      = PirateWeatherProvider.getIconUrl "clear-day"
      /\ Part000.PirateWeatherProvider.getIconUrl icon
         = Part000.PirateWeatherProvider.getIconUrl "cloudy").
Proof.
  intros Hproto.
  destruct iconMapping_shapes as [Hcodes Hurls].
  destruct iconMapping_codes_truthy as [Htruthy Htruthy'].
  split; [| split].
  - unfold PirateWeatherProvider.getIconUrl.
    destruct (PirateWeatherProvider.iconMapping !! icon) as [code |] eqn:Hcode.
    + rewrite (lookup_or_own _ _ code _ Hcode (Htruthy icon code Hcode)).
      exists code. split; [exact (Hcodes icon code Hcode) | reflexivity].
    + rewrite (lookup_or_missing _ _ _ Hcode Hproto).
      exists "01d". split; reflexivity.
  - unfold Part000.PirateWeatherProvider.getIconUrl.
    destruct (Part000.PirateWeatherProvider.iconMapping !! icon)
      as [u |] eqn:Hu.
    + rewrite (lookup_or_own _ _ u _ Hu (Htruthy' icon u Hu)).
      exists u. split; [reflexivity | exact (Hurls icon u Hu)].
    + rewrite (lookup_or_missing _ _ _ Hu Hproto).
      eexists. split; reflexivity.
  - intros Hnone.
    assert (Part000.PirateWeatherProvider.iconMapping !! icon = None) as Hnone'.
    { destruct tables_have_the_same_codes as (H1 & _ & H3).
      apply eq_None_not_Some. rewrite (lookup_same_dom _ _ icon H3).
      rewrite (lookup_same_dom _ _ icon H1). now apply eq_None_not_Some. }
    split.
    + unfold PirateWeatherProvider.getIconUrl at 1.
      now rewrite (lookup_or_missing _ _ _ Hnone Hproto).
    + unfold Part000.PirateWeatherProvider.getIconUrl at 1.
      now rewrite (lookup_or_missing _ _ _ Hnone' Hproto).
Qed.

Lemma getIconUrl_shape_witness :
  ("drizzle" ∉ Object_prototype)
  /\ PirateWeatherProvider.iconMapping !! "drizzle" = None
  /\ PirateWeatherProvider.getIconUrl "drizzle"
     = PirateWeatherProvider.getIconUrl "clear-day"
  /\ Part000.PirateWeatherProvider.getIconUrl "drizzle"
     = Part000.PirateWeatherProvider.getIconUrl "cloudy".
Proof.
  assert (PirateWeatherProvider.iconMapping !! "drizzle" = None) as Hnone
    by reflexivity.
  assert ("drizzle" ∉ Object_prototype) as Hproto.
  { apply (bool_decide_unpack _). vm_compute. exact I. }
  split; [exact Hproto |]. split; [exact Hnone |].
  exact (proj2 (proj2 (getIconUrl_shape "drizzle" Hproto)) Hnone).
Defined.

(** X13. The condition text is never empty: [formatCondition] returns the
    vendor's summary when there is one and "Unknown" when it is empty, so
    the condition of the current conditions and of every day is a non-empty
    text, in both copies. *)
Theorem formatCondition_never_empty (summary : string)
    (data : PirateWeatherResponse) (units : string) (day : PirateWeatherDaily) :
  Adapter.formatCondition summary <> ""
  /\ (summary <> "" -> Adapter.formatCondition summary = summary)
  /\ Adapter.formatCondition "" = "Unknown"
  /\ PirateWeatherProvider.condition
       (PirateWeatherProvider.current
          (PirateWeatherProvider.transformResponse data)) <> ""
  /\ Part000.PirateWeatherProvider.condition
       (Part000.PirateWeatherProvider.current
          (Part000.PirateWeatherProvider.transformResponse data units)) <> ""
  /\ d_condition (PirateWeatherProvider.transformDailyWeather day) <> ""
  /\ d_condition (Part000.PirateWeatherProvider.transformDailyWeather day) <> "".
Proof.
  assert (forall s, Adapter.formatCondition s <> "") as Hne.
  { intros s. unfold Adapter.formatCondition, or, truthy, string_truthy.
    destruct (String.eqb s "") eqn:Hs; [discriminate |].
    now apply String.eqb_neq in Hs. }
  split; [apply Hne |]. split; [| split; [reflexivity |]].
  - intros Hs. unfold Adapter.formatCondition, or, truthy, string_truthy.
    apply String.eqb_neq in Hs. now rewrite Hs.
  - repeat split; apply Hne.
Qed.

Lemma formatCondition_never_empty_witness :
  "Light rain" <> "" /\ Adapter.formatCondition "Light rain" = "Light rain".
Proof.
  assert ("Light rain" <> "") as Hsummary by discriminate.
  split; [exact Hsummary |].
  exact (proj1 (proj2 (formatCondition_never_empty
                         "Light rain" (Samples.body 0.5%Q 1) "metric"
                         (Samples.day 0%Q 0.5%Q 0.5%Q)))
           Hsummary).
Defined.

(** ** Further properties of the daily series *)

Lemma truncate_monotone (x y : number) :
  (x <= y)%Q -> (truncate x <= truncate y)%Z.
Proof.
  intros Hxy. unfold truncate.
  destruct (Qle_bool 0 x) eqn:Hx, (Qle_bool 0 y) eqn:Hy.
  - now apply Qfloor_resp_le.
  - apply Qle_bool_iff in Hx.
    assert (~ (0 <= y)%Q) as Hneg by (rewrite <- Qle_bool_iff; congruence).
    exfalso. apply Hneg. unfold number in *. lra.
  - apply Qle_bool_iff in Hy.
    assert (~ (0 <= x)%Q) as Hneg by (rewrite <- Qle_bool_iff; congruence).
    pose proof (Qceiling_lt x) as Hceiling.
    pose proof (Qfloor_resp_le 0 y Hy) as Hfloor.
    change (Qfloor 0) with 0%Z in Hfloor.
    assert (inject_Z (Qceiling x - 1) < inject_Z 0)%Q as Hlt.
    { change (inject_Z 0) with 0%Q. unfold number in *. lra. }
    rewrite <- Zlt_Qlt in Hlt. lia.
  - now apply Qceiling_resp_le.
Qed.

(** X14. The date of a normalized day is the vendor's time in
    milliseconds cut to a whole millisecond, in both copies alike, so the
    dates keep the vendor's order, though not strictly: when the times of
    the vendor's series do not decrease and are within the range of a
    [Date], the dates of the normalized series are valid and do not
    decrease.  Two times less than a millisecond apart give the same
    date. *)
Theorem daily_dates_keep_order (data : PirateWeatherResponse) (units : string) :
  (forall (i j : nat) a b,
     i < j -> db_data (daily data) !! i = Some a ->
     db_data (daily data) !! j = Some b -> (time a <= time b)%Q) ->
  (forall (i : nat) a,
     db_data (daily data) !! i = Some a ->
     (Qabs (time a * 1000) <= 8640000000000000)%Q) ->
  (forall (i j : nat) d e d' e',
     i < j ->
     PirateWeatherProvider.wd_daily
       (PirateWeatherProvider.transformResponse data) !! i = Some d ->
     PirateWeatherProvider.wd_daily
       (PirateWeatherProvider.transformResponse data) !! j = Some e ->
     Part000.PirateWeatherProvider.wd_daily
       (Part000.PirateWeatherProvider.transformResponse data units) !! i
     = Some d' ->
     Part000.PirateWeatherProvider.wd_daily
       (Part000.PirateWeatherProvider.transformResponse data units) !! j
     = Some e' ->
     exists t u : Z,
       getTime (d_date d) = Some t /\ getTime (d_date e) = Some u
       /\ getTime (d_date d') = Some t /\ getTime (d_date e') = Some u
       /\ (t <= u)%Z)
  /\ (let early := Samples.day 1700000000.0004%Q 0.5%Q 0.5%Q in
      let late := Samples.day 1700000000.0006%Q 0.5%Q 0.5%Q in
      (time early < time late)%Q
      /\ d_date (PirateWeatherProvider.transformDailyWeather early)
         = d_date (PirateWeatherProvider.transformDailyWeather late)
      /\ d_date (Part000.PirateWeatherProvider.transformDailyWeather early)
         = d_date (Part000.PirateWeatherProvider.transformDailyWeather late)).
Proof.
  intros Hsorted Hrange. split; [| now repeat split].
  intros i j d e d' e' Hij Hd He Hd' He'.
  assert (forall k : nat,
            PirateWeatherProvider.wd_daily
              (PirateWeatherProvider.transformResponse data) !! k
            = (if decide (k < 7)
               then PirateWeatherProvider.transformDailyWeather
                      <$> db_data (daily data) !! k
               else None)
            /\ Part000.PirateWeatherProvider.wd_daily
                 (Part000.PirateWeatherProvider.transformResponse data units)
               !! k
               = (if decide (k < 7)
                  then Part000.PirateWeatherProvider.transformDailyWeather
                         <$> db_data (daily data) !! k
                  else None)) as Hnth.
  { intros k. split; apply (proj2 (first_seven _ _)). }
  destruct (Hnth i) as [Hi Hi']. destruct (Hnth j) as [Hj Hj'].
  cbv zeta in *. rewrite Hd in Hi. rewrite He in Hj.
  rewrite Hd' in Hi'. rewrite He' in Hj'.
  destruct (decide (i < 7)); [| discriminate Hi].
  destruct (decide (j < 7)); [| discriminate Hj].
  destruct (db_data (daily data) !! i) as [a |] eqn:Ha; [| discriminate Hi].
  destruct (db_data (daily data) !! j) as [b |] eqn:Hb; [| discriminate Hj].
  cbn [fmap option_fmap option_map] in Hi, Hj, Hi', Hj'.
  injection Hi as ->. injection Hj as ->.
  injection Hi' as ->. injection Hj' as ->.
  pose proof (Hsorted i j a b Hij Ha Hb) as Hle.
  pose proof (proj2 (Qle_bool_iff _ _) (Hrange i a Ha)) as Ha'.
  pose proof (proj2 (Qle_bool_iff _ _) (Hrange j b Hb)) as Hb'.
  exists (truncate (time a * 1000)%Q), (truncate (time b * 1000)%Q).
  cbn [d_date PirateWeatherProvider.transformDailyWeather
       Part000.PirateWeatherProvider.transformDailyWeather].
  unfold new_Date. cbn [getTime]. rewrite Ha', Hb'.
  repeat split. apply truncate_monotone. unfold number in *. lra.
Qed.

Lemma daily_dates_keep_order_witness :
  let data := Samples.body 0.5%Q 10 in
  exists d e t u,
    PirateWeatherProvider.wd_daily
      (PirateWeatherProvider.transformResponse data) !! 2 = Some d
    /\ PirateWeatherProvider.wd_daily
         (PirateWeatherProvider.transformResponse data) !! 5 = Some e
    /\ getTime (d_date d) = Some t /\ getTime (d_date e) = Some u
    /\ (t <= u)%Z.
Proof.
  intros data.
  assert (forall (i : nat) a,
            db_data (daily data) !! i = Some a ->
            exists x : nat,
              (x < 10)%nat
              /\ time a = inject_Z (1700000000 + 86400 * Z.of_nat x)
              /\ x = i) as Htimes.
  { intros i a Ha. subst data. cbn [db_data daily Samples.body] in Ha.
    rewrite list_lookup_fmap in Ha.
    destruct (seq 0 10 !! i) as [x |] eqn:Hx; [| discriminate Ha].
    apply lookup_seq in Hx as [-> Hlt].
    cbn in Ha. injection Ha as <-. exists i. now repeat split. }
  assert (forall (i j : nat) a b,
            i < j -> db_data (daily data) !! i = Some a ->
            db_data (daily data) !! j = Some b -> (time a <= time b)%Q)
    as Hsorted.
  { intros i j a b Hij Ha Hb.
    destruct (Htimes i a Ha) as (x & _ & -> & ->).
    destruct (Htimes j b Hb) as (y & _ & -> & ->).
    rewrite <- Zle_Qle. lia. }
  assert (forall (i : nat) a,
            db_data (daily data) !! i = Some a ->
            (Qabs (time a * 1000) <= 8640000000000000)%Q) as Hrange.
  { intros i a Ha. destruct (Htimes i a Ha) as (x & Hx & -> & _).
    change 1000%Q with (inject_Z 1000).
    rewrite <- inject_Z_mult.
    change 8640000000000000%Q with (inject_Z 8640000000000000).
    rewrite Qabs_pos; rewrite <- ?Zle_Qle; [lia |].
    change 0%Q with (inject_Z 0). rewrite <- Zle_Qle. lia. }
  assert (2 < 5) as Hlt by lia.
  destruct (proj1 (daily_dates_keep_order data "metric" Hsorted Hrange)
              2 5 _ _ _ _ Hlt eq_refl eq_refl eq_refl eq_refl)
    as (t & u & Ht & Hu & _ & _ & Hle).
  eexists. eexists. exists t, u.
  split; [reflexivity |]. split; [reflexivity |].
  split; [exact Ht |]. split; [exact Hu | exact Hle].
Defined.

(** X15. Days past the seventh never reach the result: two bodies with the
    same current conditions, the same place and the same first seven days
    are normalized alike, in both copies. *)
Theorem transformResponse_ignores_later_days
    (data data' : PirateWeatherResponse) (units : string) :
  currently data = currently data' ->
  take 7 (db_data (daily data)) = take 7 (db_data (daily data')) ->
  PirateWeatherProvider.transformResponse data
  = PirateWeatherProvider.transformResponse data'
  /\ (r_latitude data = r_latitude data' ->
      r_longitude data = r_longitude data' ->
      r_timezone data = r_timezone data' ->
      Part000.PirateWeatherProvider.transformResponse data units
      = Part000.PirateWeatherProvider.transformResponse data' units).
Proof.
  intros Hnow Hseven.
  unfold PirateWeatherProvider.transformResponse,
    Part000.PirateWeatherProvider.transformResponse.
  rewrite Hnow, Hseven. split; [reflexivity |]. now intros -> -> ->.
Qed.

Lemma transformResponse_ignores_later_days_witness :
  PirateWeatherProvider.transformResponse (Samples.body 0.5%Q 7)
  = PirateWeatherProvider.transformResponse (Samples.body 0.5%Q 10).
Proof.
  exact (proj1 (transformResponse_ignores_later_days
                  (Samples.body 0.5%Q 7) (Samples.body 0.5%Q 10) "metric"
                  eq_refl eq_refl)).
Defined.

(** ** The two copies side by side *)

(** X16. How the two copies differ on one body.  They agree on the condition
    text, the wind direction and the length of the daily series; of every day
    they agree on the date, the condition text, the wind bearing and the UV
    index.  On the numbers the copy in [src/weather-providers] is the other
    copy rounded: to whole numbers for the temperature, the feels-like
    temperature, the humidity and the pressure of the current conditions and
    for the temperatures, the humidity, the pressure and the cloud cover of a
    day, to tenths for the wind speeds. *)
Theorem rounded_copy_rounds_the_other (data : PirateWeatherResponse)
    (units : string) (day : PirateWeatherDaily) :
  let c := PirateWeatherProvider.current
             (PirateWeatherProvider.transformResponse data) in
  let c' := Part000.PirateWeatherProvider.current
              (Part000.PirateWeatherProvider.transformResponse data units) in
  let d := PirateWeatherProvider.transformDailyWeather day in
  let d' := Part000.PirateWeatherProvider.transformDailyWeather day in
  (PirateWeatherProvider.condition c = Part000.PirateWeatherProvider.condition c'
   /\ PirateWeatherProvider.windDirection c
      = Part000.PirateWeatherProvider.windDirection c'
   /\ length (PirateWeatherProvider.wd_daily
                (PirateWeatherProvider.transformResponse data))
      = length (Part000.PirateWeatherProvider.wd_daily
                  (Part000.PirateWeatherProvider.transformResponse data units)))
  /\ (PirateWeatherProvider.temperature c
      = Math_round (Part000.PirateWeatherProvider.temperature c')
      /\ PirateWeatherProvider.feelsLike c
         = Math_round (Part000.PirateWeatherProvider.feelsLike c')
      /\ PirateWeatherProvider.cur_humidity c
         = Math_round (Part000.PirateWeatherProvider.cur_humidity c')
      /\ PirateWeatherProvider.cur_pressure c
         = Math_round (Part000.PirateWeatherProvider.cur_pressure c')
      /\ PirateWeatherProvider.cur_windSpeed c
         = (Math_round (Part000.PirateWeatherProvider.cur_windSpeed c' * 10)
            / 10)%Q)
  /\ (d_date d = d_date d'
      /\ d_condition d = d_condition d'
      /\ d_windBearing d = d_windBearing d'
      /\ d_uvIndex d = d_uvIndex d')
  /\ (d_temperatureMax d = Math_round (d_temperatureMax d')
      /\ d_temperatureMin d = Math_round (d_temperatureMin d')
      /\ d_humidity d = Math_round (d_humidity d')
      /\ d_pressure d = Math_round (d_pressure d')
      /\ d_cloudCover d = Math_round (d_cloudCover d')
      /\ d_windSpeed d = (Math_round (d_windSpeed d' * 10) / 10)%Q).
Proof.
  cbn. rewrite !length_fmap. repeat split.
Qed.

(** * Further properties of [initConnectCallbackAsync] *)
Section CardExtras.
Import Part000.WallClockCard.

Lemma step_keeps_settled (s : State) (ev : Event) (c : Component) :
  ready s c <> Pending -> ready (step s ev) c = ready s c.
Proof.
  intros Hc. destruct ev as [c' outcome | outcome |]; cbn [step].
  - destruct (ready s c') eqn:Hc'; try reflexivity.
    cbn [ready]. destruct (decide (c' = c)) as [-> | Hne];
      [contradiction |]. now rewrite fn_lookup_insert_ne.
  - now destruct (body s).
  - now destruct (resume s).
Qed.

Lemma step_keeps_pending (s : State) (ev : Event) (c : Component) :
  (forall outcome, ev <> ReadySettles c outcome) ->
  ready (step s ev) c = ready s c.
Proof.
  intros Hev. destruct ev as [c' outcome | outcome |]; cbn [step].
  - destruct (ready s c') eqn:Hc'; try reflexivity.
    cbn [ready]. destruct (decide (c' = c)) as [-> | Hne];
      [now destruct (Hev outcome) |]. now rewrite fn_lookup_insert_ne.
  - now destruct (body s).
  - now destruct (resume s).
Qed.

Lemma exec_keeps_unready (s : State) (schedule : list Event) (c : Component) :
  (ready s c = Pending /\ (forall outcome, ReadySettles c outcome ∉ schedule))
  \/ (exists reason, ready s c = RejectedWith reason) ->
  ready (exec s schedule) c <> Resolved.
Proof.
  revert s. induction schedule as [| ev schedule IH]; intros s Hc.
  - cbn. destruct Hc as [[-> _] | [reason ->]]; discriminate.
  - cbn [exec foldl]. apply IH.
    destruct Hc as [[Hc Hnone] | [reason Hc]].
    + left. split.
      * rewrite step_keeps_pending; [exact Hc |].
        intros outcome ->. apply (Hnone outcome). now left.
      * intros outcome Hin. apply (Hnone outcome). now right.
    + right. exists reason. rewrite step_keeps_settled; [exact Hc |].
      rewrite Hc. discriminate.
Qed.

(** X17. The barrier does not open without all six.  When one of the six
    readiness promises is pending at the call and never settles, or is
    rejected, then along every schedule the function does nothing at all:
    no property is re-applied, the logger is not configured, the loader is
    not called, nothing is published, and the function is still at its first
    [await] or has been thrown out of it. *)
Theorem barrier_blocks_without_all_six config ready0 schedule (c : Component) :
  (ready0 c = Pending /\ (forall outcome, ReadySettles c outcome ∉ schedule))
  \/ (exists reason, ready0 c = RejectedWith reason) ->
  let s := exec (call config ready0) schedule in
  effects s = []
  /\ (body s = initConnectCallbackAsync config
      \/ exists reason, body s = Throw reason).
Proof.
  intros Hc s.
  pose proof (exec_keeps_unready (call config ready0) schedule c Hc) as Hunready.
  fold s in Hunready.
  destruct (reachable_consistent config ready0 schedule) as [Hbarrier Hplace].
  fold s in Hbarrier, Hplace.
  assert (barrier s <> Resolved) as Hclosed.
  { intros Hres. apply Hunready.
    exact (proj1 (allReady_spec _) (Hbarrier Hres) c). }
  destruct Hplace
    as [[Hb He] | [[(reason & Hb & _) He]
                  | [(_ & Hres & _) | (_ & Hres & _)]]];
    try contradiction.
  - split; [exact He | now left].
  - split; [exact He | right; now exists reason].
Qed.

Lemma barrier_blocks_without_all_six_witness :
  let config := Samples.cardConfig (JsBoolean false) in
  let ready0 :=
    <[sensorComponent := RejectedWith (Error "no entity")]>
      (fun _ : Component => Resolved) in
  let s := exec (call config ready0) (Samples.schedule Resolved) in
  effects s = [] /\ body s = Throw (Error "no entity").
Proof.
  intros config ready0 s.
  destruct (barrier_blocks_without_all_six config ready0
              (Samples.schedule Resolved) sensorComponent) as [Heffects _].
  { right. exists (Error "no entity"). reflexivity. }
  split; [exact Heffects | reflexivity].
Defined.

(** X18. The effects come in the order of the source, whatever the
    schedule: the trace of a call is always a beginning of the list made of
    the two transportation properties, the logger configuration, the call
    of the loader, one log line (the debug line, or the error line with what
    the loader threw) and, when [showWeather] is falsy, the publication. *)
Theorem effects_follow_the_source config ready0 schedule :
  let s := exec (call config ready0) schedule in
  exists line,
    (line = LoggerDebug "Loaded translations for all languages"
     \/ exists error, line = LoggerError "Error loading translations:" error)
    /\ effects s
       `prefix_of`
       ([ SetTransportationFontColor (fontColor config);
          SetTransportation (transportation config);
          ConfigureLogger (or_default (logLevel config) "info");
          LoadTranslations;
          line ]
        ++ (if truthy (showWeather config)
            then [] else [Publish (WeatherMessage All)]))%list.
Proof.
  intros s.
  destruct (reachable_consistent config ready0 schedule) as [_ Hplace].
  fold s in Hplace.
  destruct Hplace
    as [[_ ->] | [[_ ->]
                 | [(_ & _ & ->) | (_ & _ & outcome & Houtcome & ->)]]].
  - exists (LoggerDebug "Loaded translations for all languages").
    split; [now left | apply prefix_nil].
  - exists (LoggerDebug "Loaded translations for all languages").
    split; [now left | apply prefix_nil].
  - exists (LoggerDebug "Loaded translations for all languages").
    split; [now left |]. unfold afterBarrier.
    eexists. cbn [app]. reflexivity.
  - unfold afterBarrier, afterTranslations.
    destruct outcome as [| | error]; [contradiction | |].
    + exists (LoggerDebug "Loaded translations for all languages").
      split; [now left |].
      destruct (truthy (showWeather config)); cbn; reflexivity.
    + exists (LoggerError "Error loading translations:" error).
      split; [right; now exists error |].
      destruct (truthy (showWeather config)); cbn; reflexivity.
Qed.
End CardExtras.

(** * Properties of the card element *)
Section ElementProperties.
Import Part000.WallClockCard.
Import Element.
Local Open Scope list_scope.

Lemma assign_union (assignments : list (string * Value)) o :
  assign assignments o = list_to_map (reverse assignments) ∪ o.
Proof.
  unfold assign. revert o.
  induction assignments as [| [k v] rest IH]; intros o.
  - cbn. now rewrite (left_id_L ∅ (∪)).
  - cbn [foldl]. rewrite IH, reverse_cons, list_to_map_app.
    cbn [list_to_map foldr].
    rewrite insert_empty, <- (assoc_L (∪)).
    now rewrite <- insert_union_singleton_l.
Qed.

Lemma assign_twice (assignments : list (string * Value)) o :
  assign assignments (assign assignments o) = assign assignments o.
Proof.
  rewrite !assign_union, (assoc_L (∪)). now rewrite (idemp_L (∪)).
Qed.

Lemma assign_app (first rest : list (string * Value)) o :
  assign (first ++ rest) o = assign rest (assign first o).
Proof. unfold assign. apply foldl_app. Qed.

Lemma lookup_assign_other (assignments : list (string * Value)) o k :
  forallb (fun '(k', _) => negb (String.eqb k k')) assignments = true ->
  assign assignments o !! k = o !! k.
Proof.
  unfold assign. revert o.
  induction assignments as [| [k' v] rest IH]; intros o Hk; [reflexivity |].
  cbn [forallb] in Hk. apply andb_prop in Hk as [Hne Hrest].
  cbn [foldl]. rewrite (IH _ Hrest).
  apply negb_true_iff, String.eqb_neq in Hne.
  now rewrite lookup_insert_ne.
Qed.

Lemma lookup_assign_last (assignments : list (string * Value)) o k v rest :
  forallb (fun '(k', _) => negb (String.eqb k k')) rest = true ->
  assign (assignments ++ (k, v) :: rest) o !! k = Some v.
Proof.
  intros Hrest. rewrite assign_app.
  change ((k, v) :: rest) with ([(k, v)] ++ rest).
  rewrite assign_app, (lookup_assign_other _ _ _ Hrest).
  cbn. apply lookup_insert_eq.
Qed.

Lemma prop_insert_ne (props : gmap string Value) k k' v :
  k <> k' -> prop (<[k := v]> props) k' = prop props k'.
Proof. intros Hne. unfold prop. now rewrite lookup_insert_ne. Qed.

Lemma prop_insert_eq (props : gmap string Value) k v :
  prop (<[k := v]> props) k = v.
Proof. unfold prop. now rewrite lookup_insert_eq. Qed.

Lemma actionBarOf_truthy config : truthy (actionBarOf config) = true.
Proof. unfold actionBarOf. now destruct (truthy (prop config "actionBar")). Qed.

Lemma actionBarOf_again config :
  actionBarOf (<["actionBar" := actionBarOf config]> config)
  = actionBarOf config.
Proof.
  unfold actionBarOf at 1.
  rewrite prop_insert_eq, actionBarOf_truthy.
  rewrite prop_insert_ne by discriminate.
  unfold actionBarOf.
  destruct (truthy (prop config "actionBar")); cbn [spread];
    now rewrite insert_insert_eq.
Qed.

Lemma lookup_assign (assignments : list (string * Value)) o k :
  assign assignments o !! k
  = foldl (fun found '(k', v) => if String.eqb k k' then Some v else found)
      (o !! k) assignments.
Proof.
  unfold assign. revert o.
  induction assignments as [| [k' v] rest IH]; intros o; [reflexivity |].
  cbn [foldl]. rewrite IH. f_equal.
  destruct (String.eqb_spec k k') as [-> | Hne].
  - apply lookup_insert_eq.
  - now apply lookup_insert_ne.
Qed.

Lemma setupComponents_idempotent (this : Card) :
  setupComponents (setupComponents this) = setupComponents this.
Proof.
  unfold setupComponents.
  cbn [config hass clockComponent sensorComponent weatherComponent
       backgroundImageComponent transportationComponent actionBarComponent
       currentComponent debugLog].
  rewrite actionBarOf_again, insert_insert_eq.
  rewrite !prop_insert_eq.
  rewrite !(prop_insert_ne (config this) "actionBar") by discriminate.
  now rewrite !assign_twice.
Qed.

(** X20. [setupComponents] can be run again without effect: run any
    number of times more, it leaves the configuration and all six
    sub-components as running it once does.  (The constructor runs it, and
    [connectedCallback] runs it again each time the card is attached.) *)
Theorem setupComponents_repeated (this : Card) (n : nat) :
  Nat.iter (S n) setupComponents this = setupComponents this.
Proof.
  induction n as [| n IH]; [reflexivity |].
  change (Nat.iter (S (S n)) setupComponents this)
    with (setupComponents (Nat.iter (S n) setupComponents this)).
  rewrite IH. apply setupComponents_idempotent.
Qed.



(** X22. Stale values survive [setupComponents].  When the configuration
    has no custom sizes, the size properties of the clock, the sensors, the
    weather and the action bar keep whatever they held before (sizes pushed
    under an earlier configuration are not cleared); when it has, they take
    the configured sizes.  Likewise the sensors keep their previous [hass]
    when the card's [hass] is falsy, and take the card's otherwise. *)
Theorem setupComponents_keeps_stale_values (this : Card) :
  let after := setupComponents this in
  let customSizes := prop (config this) "customSizes" in
  (truthy customSizes = false ->
     clockComponent after !! "clockSize" = clockComponent this !! "clockSize"
     /\ clockComponent after !! "dateSize" = clockComponent this !! "dateSize"
     /\ clockComponent after !! "clockTopMargin"
        = clockComponent this !! "clockTopMargin"
     /\ sensorComponent after !! "labelSize"
        = sensorComponent this !! "labelSize"
     /\ sensorComponent after !! "valueSize"
        = sensorComponent this !! "valueSize"
     /\ weatherComponent after !! "labelSize"
        = weatherComponent this !! "labelSize"
     /\ weatherComponent after !! "valueSize"
        = weatherComponent this !! "valueSize"
     /\ actionBarComponent after !! "iconSize"
        = actionBarComponent this !! "iconSize")
  /\ (truthy customSizes = true ->
      clockComponent after !! "clockSize" = Some (get customSizes "clockSize")
      /\ clockComponent after !! "dateSize" = Some (get customSizes "dateSize")
      /\ clockComponent after !! "clockTopMargin"
         = Some (get customSizes "clockTopMargin")
      /\ sensorComponent after !! "labelSize"
         = Some (get customSizes "labelSize")
      /\ sensorComponent after !! "valueSize"
         = Some (get customSizes "valueSize")
      /\ weatherComponent after !! "labelSize"
         = Some (get customSizes "labelSize")
      /\ weatherComponent after !! "valueSize"
         = Some (get customSizes "valueSize")
      /\ actionBarComponent after !! "iconSize"
         = Some (get customSizes "actionBarIconSize"))
  /\ (truthy (hass this) = false ->
      sensorComponent after !! "hass" = sensorComponent this !! "hass")
  /\ (truthy (hass this) = true ->
      sensorComponent after !! "hass" = Some (hass this)).
Proof.
  cbn zeta. unfold setupComponents.
  cbn [clockComponent sensorComponent weatherComponent actionBarComponent].
  rewrite !prop_insert_eq.
  rewrite !(prop_insert_ne (config this) "actionBar") by discriminate.
  split; [| split; [| split]].
  - intros ->. rewrite !lookup_assign.
    now destruct (truthy (hass this)).
  - intros ->. rewrite !lookup_assign.
    now destruct (truthy (hass this)).
  - intros ->. rewrite lookup_assign.
    now destruct (truthy (prop (config this) "customSizes")).
  - intros ->. rewrite lookup_assign.
    now destruct (truthy (prop (config this) "customSizes")).
Qed.

Lemma setupComponents_keeps_stale_values_witness :
  let this := setupComponents (SampleCards.fresh SampleCards.sized) in
  let again :=
    setupComponents
      {| config := SampleCards.plain;
         hass := hass this;
         clockComponent := clockComponent this;
         sensorComponent := sensorComponent this;
         weatherComponent := weatherComponent this;
         backgroundImageComponent := backgroundImageComponent this;
         transportationComponent := transportationComponent this;
         actionBarComponent := actionBarComponent this;
         currentComponent := currentComponent this;
         debugLog := debugLog this |} in
  truthy (prop SampleCards.plain "customSizes") = false
  /\ clockComponent this !! "clockSize" = Some (VString "8rem")
  /\ clockComponent again !! "clockSize" = clockComponent this !! "clockSize".
Proof.
  intros this again.
  assert (truthy (prop SampleCards.plain "customSizes") = false) as Hfalsy
    by reflexivity.
  split; [exact Hfalsy |]. split; [reflexivity |].
  exact (proj1 (proj1 (setupComponents_keeps_stale_values
                         {| config := SampleCards.plain;
                            hass := hass this;
                            clockComponent := clockComponent this;
                            sensorComponent := sensorComponent this;
                            weatherComponent := weatherComponent this;
                            backgroundImageComponent :=
                              backgroundImageComponent this;
                            transportationComponent :=
                              transportationComponent this;
                            actionBarComponent := actionBarComponent this;
                            currentComponent := currentComponent this;
                            debugLog := debugLog this |})
                  Hfalsy)).
Defined.

Lemma lookup_assign_3 k1 v1 k2 v2 k3 v3 o k :
  assign [(k1, v1); (k2, v2); (k3, v3)] o !! k
  = if String.eqb k k3 then Some v3
    else if String.eqb k k2 then Some v2
    else if String.eqb k k1 then Some v1
    else o !! k.
Proof. rewrite lookup_assign. reflexivity. Qed.

Lemma prop_assign_3 k1 v1 k2 v2 k3 v3 o k :
  prop (assign [(k1, v1); (k2, v2); (k3, v3)] o) k
  = if String.eqb k k3 then v3
    else if String.eqb k k2 then v2
    else if String.eqb k k1 then v1
    else prop o k.
Proof.
  unfold prop. rewrite lookup_assign. cbn [foldl].
  now destruct (String.eqb k k3), (String.eqb k k2), (String.eqb k k1).
Qed.

Lemma prop_list_to_map_cons k v (rest : list (string * Value)) k' :
  prop (list_to_map ((k, v) :: rest)) k'
  = if String.eqb k' k then v else prop (list_to_map rest) k'.
Proof.
  cbn [list_to_map foldr uncurry fst snd].
  destruct (String.eqb_spec k' k) as [-> | Hne].
  - apply prop_insert_eq.
  - apply prop_insert_ne. congruence.
Qed.

(** X23. The defaults of [initBackgroundImageComponent].  The image source
    falls back to ["picsum"] for every falsy [imageSource] (the empty
    string too), while the opacity falls back to [0.5] only for an
    [undefined] or [null] [backgroundOpacity]: an opacity of [0] is kept.
    The component's [hass] is overwritten by the card's whatever it is
    (there is no guard as for the sensors), the five fields read through
    [imageConfig?.] are [undefined] when there is no [imageConfig], and no
    other property of the component is touched. *)
Theorem initBackgroundImageComponent_defaults (this : Card) :
  let after := backgroundImageComponent (initBackgroundImageComponent this) in
  let source := prop (config this) "imageSource" in
  let opacity := prop (config this) "backgroundOpacity" in
  let imageSourceConfig := get (prop after "config") "imageSourceConfig" in
  get imageSourceConfig "imageSourceId"
  = (if truthy source then source else VString "picsum")
  /\ prop after "backgroundOpacity"
     = match opacity with
       | VUndefined | VNull => VNumber 0.5%Q
       | _ => opacity
       end
  /\ after !! "hass" = Some (hass this)
  /\ (nullish (prop (config this) "imageConfig") VNull = VNull ->
      forall k, k ∈ ["entity"; "apiKey"; "contentFilter"; "category"; "count"] ->
                get imageSourceConfig k = VUndefined)
  /\ (forall k, k ∉ ["backgroundOpacity"; "config"; "hass"] ->
                after !! k = backgroundImageComponent this !! k).
Proof.
  cbn zeta. unfold initBackgroundImageComponent.
  cbn [backgroundImageComponent]. rewrite !prop_assign_3.
  cbn [String.eqb Ascii.eqb Bool.eqb get].
  rewrite !prop_list_to_map_cons.
  cbn [String.eqb Ascii.eqb Bool.eqb get].
  split; [| split; [| split; [| split]]].
  - rewrite !prop_list_to_map_cons. reflexivity.
  - unfold nullish. now destruct (prop (config this) "backgroundOpacity").
  - now rewrite lookup_assign_3.
  - intros Hnone k Hk.
    assert (forall k', getOptional (prop (config this) "imageConfig") k'
                       = VUndefined) as Hget.
    { intros k'. now destruct (prop (config this) "imageConfig"). }
    rewrite !Hget.
    repeat (apply elem_of_cons in Hk as [-> | Hk];
            [now rewrite !prop_list_to_map_cons |]).
    now apply not_elem_of_nil in Hk.
  - intros k Hk. rewrite lookup_assign_3.
    destruct (String.eqb_spec k "hass") as [-> | _].
    { exfalso. apply Hk. now repeat constructor. }
    destruct (String.eqb_spec k "config") as [-> | _].
    { exfalso. apply Hk. now repeat constructor. }
    destruct (String.eqb_spec k "backgroundOpacity") as [-> | _].
    { exfalso. apply Hk. now repeat constructor. }
    reflexivity.
Qed.

Lemma initBackgroundImageComponent_defaults_witness :
  let this := SampleCards.fresh SampleCards.plain in
  let after := backgroundImageComponent (initBackgroundImageComponent this) in
  nullish (prop (config this) "imageConfig") VNull = VNull
  /\ get (get (prop after "config") "imageSourceConfig") "entity" = VUndefined
  /\ get (get (prop after "config") "imageSourceConfig") "imageSourceId"
     = VString "picsum"
  /\ prop after "backgroundOpacity" = VNumber 0%Q.
Proof.
  intros this after.
  assert (nullish (prop (config this) "imageConfig") VNull = VNull) as Hnone
    by reflexivity.
  destruct (initBackgroundImageComponent_defaults this)
    as (Hsource & Hopacity & _ & Hfields & _).
  split; [exact Hnone |]. split; [| split].
  - apply (Hfields Hnone). now constructor.
  - exact Hsource.
  - exact Hopacity.
Defined.

Lemma initBackgroundImageComponent_config (this : Card) (config' : gmap string Value) :
  (forall k, k <> "actionBar" -> prop config' k = prop (config this) k) ->
  backgroundImageComponent
    (initBackgroundImageComponent
       {| config := config';
          hass := hass this;
          clockComponent := clockComponent this;
          sensorComponent := sensorComponent this;
          weatherComponent := weatherComponent this;
          backgroundImageComponent := backgroundImageComponent this;
          transportationComponent := transportationComponent this;
          actionBarComponent := actionBarComponent this;
          currentComponent := currentComponent this;
          debugLog := debugLog this |})
  = backgroundImageComponent (initBackgroundImageComponent this).
Proof.
  intros Hsame. unfold initBackgroundImageComponent.
  cbn [config hass backgroundImageComponent].
  now rewrite !Hsame by discriminate.
Qed.

Lemma connectedCallback_other_order (this : Card) :
  connectedCallback this = initBackgroundImageComponent (setupComponents this).
Proof.
  unfold connectedCallback.
  pose proof (initBackgroundImageComponent_config this
                (<["actionBar" := actionBarOf (config this)]> (config this)))
    as Hbackground.
  unfold initBackgroundImageComponent, setupComponents in *.
  cbn [config hass clockComponent sensorComponent weatherComponent
       backgroundImageComponent transportationComponent actionBarComponent
       currentComponent debugLog] in *.
  rewrite Hbackground; [reflexivity |].
  intros k Hk. now apply prop_insert_ne.
Qed.

(** X24. The two synchronous steps of [connectedCallback] do not depend on
    their order: [initBackgroundImageComponent] reads nothing that
    [setupComponents] writes (of the configuration it changes [actionBar]
    only), and [setupComponents] does not touch the background component.
    So after [connectedCallback] the background component is as
    [initBackgroundImageComponent] alone leaves it, and the configuration
    and the other five sub-components are as [setupComponents] alone
    leaves them. *)
Theorem connectedCallback_steps_commute (this : Card) :
  let after := connectedCallback this in
  after = initBackgroundImageComponent (setupComponents this)
  /\ backgroundImageComponent after
     = backgroundImageComponent (initBackgroundImageComponent this)
  /\ config after = config (setupComponents this)
  /\ clockComponent after = clockComponent (setupComponents this)
  /\ sensorComponent after = sensorComponent (setupComponents this)
  /\ weatherComponent after = weatherComponent (setupComponents this)
  /\ transportationComponent after
     = transportationComponent (setupComponents this)
  /\ actionBarComponent after = actionBarComponent (setupComponents this).
Proof.
  cbn zeta. split; [apply connectedCallback_other_order |].
  split; [reflexivity |].
  rewrite connectedCallback_other_order. repeat split.
Qed.

Lemma truthy_toAny (v : Value) : truthy (toAny v) = truthy v.
Proof. now destruct v. Qed.

Lemma render_weather_block (this : Card) :
  WeatherBlock ∈ parts (render this)
  <-> truthy (prop (config this) "showWeather") = true.
Proof.
  unfold render. cbn [parts].
  destruct (truthy (prop (config this) "showWeather")); cbn [app].
  - split; [reflexivity |]. intros _. now repeat constructor.
  - split; [| discriminate]. intros Hin.
    repeat (apply elem_of_cons in Hin as [Hin | Hin]; [discriminate Hin |]).
    now apply not_elem_of_nil in Hin.
Qed.

(** X25. Attaching the card again.  The synchronous steps of
    [connectedCallback], run on their own result, leave the configuration,
    [hass] and the six sub-components as they are and add one more line
    ["Background image component initialized"] to the debug log.  The call
    of [initConnectCallbackAsync] that ends every attach is made again and
    is not without effect: it reads the same [showWeather] as at the first
    attach, so with a falsy [showWeather] the call of the second attach,
    once the six readiness promises are resolved and along every fair
    schedule, publishes [WeatherMessage(Weather.All)] once more. *)
Theorem connectedCallback_again (this : Card)
    (cfg : Part000.WallClockCard.WallClockConfig)
    (ready0 : Part000.WallClockCard.Component -> Part000.WallClockCard.Promise)
    (schedule mid mid' post : list Part000.WallClockCard.Event)
    (outcome : Part000.WallClockCard.Promise) :
  let once := connectedCallback this in
  let twice := connectedCallback once in
  (config twice = config once
   /\ hass twice = hass once
   /\ clockComponent twice = clockComponent once
   /\ sensorComponent twice = sensorComponent once
   /\ weatherComponent twice = weatherComponent once
   /\ backgroundImageComponent twice = backgroundImageComponent once
   /\ transportationComponent twice = transportationComponent once
   /\ actionBarComponent twice = actionBarComponent once
   /\ currentComponent twice = currentComponent once
   /\ debugLog twice
      = debugLog once ++ ["Background image component initialized"])
  /\ prop (config twice) "showWeather" = prop (config this) "showWeather"
  /\ (let s :=
        Part000.WallClockCard.exec (Part000.WallClockCard.call cfg ready0)
          schedule in
      Part000.WallClockCard.showWeather cfg
      = toAny (prop (config twice) "showWeather") ->
      truthy (prop (config this) "showWeather") = false ->
      (forall c,
         Part000.WallClockCard.ready s c = Part000.WallClockCard.Resolved) ->
      outcome <> Part000.WallClockCard.Pending ->
      Part000.WallClockCard.suppressions
        (Part000.WallClockCard.exec s
           (Part000.WallClockCard.fair outcome mid mid' post))
      = 1).
Proof.
  cbn zeta.
  assert (connectedCallback (connectedCallback this)
          = initBackgroundImageComponent (connectedCallback this)) as ->.
  { rewrite (connectedCallback_other_order (connectedCallback this)).
    unfold connectedCallback. now rewrite setupComponents_idempotent. }
  assert (prop (config (initBackgroundImageComponent (connectedCallback this)))
            "showWeather"
          = prop (config this) "showWeather") as Hsame.
  { unfold connectedCallback, setupComponents, initBackgroundImageComponent.
    cbn [config]. now rewrite prop_insert_ne by discriminate. }
  split; [| split; [exact Hsame |]].
  - rewrite (connectedCallback_other_order this).
    set (card := setupComponents this).
    unfold initBackgroundImageComponent.
    cbn [config hass clockComponent sensorComponent weatherComponent
         backgroundImageComponent transportationComponent actionBarComponent
         currentComponent debugLog].
    repeat split. apply assign_twice.
  - intros Hshow Hfalsy Hready Houtcome. rewrite Hsame in Hshow.
    apply (fair_schedule_publishes cfg); try assumption.
    + apply reachable_consistent.
    + apply reachable_barrierFollows.
    + now rewrite Hshow, truthy_toAny.
Qed.

Lemma connectedCallback_again_witness :
  let this := SampleCards.fresh SampleCards.plain in
  let twice := connectedCallback (connectedCallback this) in
  let cfg := Samples.cardConfig (Part000.WallClockCard.JsBoolean false) in
  let s :=
    Part000.WallClockCard.exec
      (Part000.WallClockCard.call cfg
         (fun _ => Part000.WallClockCard.Resolved)) [] in
  Part000.WallClockCard.showWeather cfg
  = toAny (prop (config twice) "showWeather")
  /\ truthy (prop (config this) "showWeather") = false
  /\ (forall c,
        Part000.WallClockCard.ready s c = Part000.WallClockCard.Resolved)
  /\ Part000.WallClockCard.suppressions
       (Part000.WallClockCard.exec s
          (Part000.WallClockCard.fair Part000.WallClockCard.Resolved
             [] [] []))
     = 1.
Proof.
  intros this twice cfg s.
  assert (Part000.WallClockCard.showWeather cfg
          = toAny (prop (config twice) "showWeather")) as Hshow
    by reflexivity.
  assert (truthy (prop (config this) "showWeather") = false) as Hfalsy
    by reflexivity.
  assert (forall c,
            Part000.WallClockCard.ready s c = Part000.WallClockCard.Resolved)
    as Hready by reflexivity.
  assert (Part000.WallClockCard.Resolved <> Part000.WallClockCard.Pending)
    as Hresolved by discriminate.
  split; [exact Hshow |]. split; [exact Hfalsy |]. split; [exact Hready |].
  exact (proj2 (proj2 (connectedCallback_again
                         this cfg (fun _ => Part000.WallClockCard.Resolved)
                         [] [] [] [] Part000.WallClockCard.Resolved))
           Hshow Hfalsy Hready Hresolved).
Defined.

(** X26. What the card renders agrees with what it has published.  For a
    call of [initConnectCallbackAsync] that has returned, under any
    schedule, the template of [render] holds the weather block exactly
    when the call has published no [WeatherMessage(Weather.All)], and
    leaves it out exactly when the call has published one: both read the
    same [showWeather] by its truthiness. *)
Theorem render_agrees_with_suppression (this : Card)
    (cfg : Part000.WallClockCard.WallClockConfig)
    (ready0 : Part000.WallClockCard.Component -> Part000.WallClockCard.Promise)
    (schedule : list Part000.WallClockCard.Event) :
  let s :=
    Part000.WallClockCard.exec (Part000.WallClockCard.call cfg ready0)
      schedule in
  Part000.WallClockCard.showWeather cfg
  = toAny (prop (config this) "showWeather") ->
  Part000.WallClockCard.body s = Part000.WallClockCard.Return ->
  (WeatherBlock ∈ parts (render this)
   <-> Part000.WallClockCard.suppressions s = 0)
  /\ (WeatherBlock ∉ parts (render this)
      <-> Part000.WallClockCard.suppressions s = 1).
Proof.
  intros s Hshow Hbody.
  pose proof (consistent_suppressions cfg s
                (reachable_consistent cfg ready0 schedule)) as Hcount.
  rewrite Hbody, Hshow, truthy_toAny in Hcount.
  rewrite render_weather_block, Hcount.
  destruct (truthy (prop (config this) "showWeather"));
    intuition congruence.
Qed.

Lemma render_agrees_with_suppression_witness :
  let this := connectedCallback (SampleCards.fresh SampleCards.plain) in
  let cfg := Samples.cardConfig (Part000.WallClockCard.JsBoolean false) in
  let s :=
    Part000.WallClockCard.exec
      (Part000.WallClockCard.call cfg (fun _ => Part000.WallClockCard.Pending))
      (Samples.schedule Part000.WallClockCard.Resolved) in
  Part000.WallClockCard.showWeather cfg
  = toAny (prop (config this) "showWeather")
  /\ Part000.WallClockCard.body s = Part000.WallClockCard.Return
  /\ Part000.WallClockCard.suppressions s = 1
  /\ WeatherBlock ∉ parts (render this).
Proof.
  intros this cfg s.
  assert (Part000.WallClockCard.showWeather cfg
          = toAny (prop (config this) "showWeather")) as Hshow
    by reflexivity.
  assert (Part000.WallClockCard.body s = Part000.WallClockCard.Return)
    as Hbody by reflexivity.
  assert (Part000.WallClockCard.suppressions s = 1) as Hone by reflexivity.
  split; [exact Hshow |]. split; [exact Hbody |]. split; [exact Hone |].
  exact (proj2 (proj2 (render_agrees_with_suppression
                         this cfg (fun _ => Part000.WallClockCard.Pending)
                         (Samples.schedule Part000.WallClockCard.Resolved)
                         Hshow Hbody))
           Hone).
Defined.

(** X27. The template of [render].  It always holds the background, the
    sensors, the clock and the bottom bar, in this order, with the weather
    block between the sensors and the clock for a truthy [showWeather]
    and nothing in its place otherwise.  The clock is pulled up by 140px
    unless the bottom bar manager's current component is [null] (an
    [undefined] one pulls it up too).  The synchronous part of
    [connectedCallback] does not change the template. *)
Theorem render_template (this : Card) :
  let template := render this in
  let style :=
    match currentComponent this with
    | VNull => ""
    | _ => "margin-top: -140px;"
    end in
  List.filter (fun part => match part with WeatherBlock => false | _ => true end)
    (parts template)
  = [BackgroundImage; Sensors; Clock style; BottomBar]
  /\ (length (parts template)
      = if truthy (prop (config this) "showWeather") then 5 else 4)
  /\ (parts template !! 2
      = if truthy (prop (config this) "showWeather")
        then Some WeatherBlock else Some (Clock style))
  /\ render (connectedCallback this) = template.
Proof.
  cbn zeta. unfold render at 1 2 3. cbn [parts].
  split; [| split; [| split]].
  - now destruct (truthy (prop (config this) "showWeather")),
      (currentComponent this).
  - now destruct (truthy (prop (config this) "showWeather")).
  - now destruct (truthy (prop (config this) "showWeather")),
      (currentComponent this).
  - unfold connectedCallback, render, setupComponents,
      initBackgroundImageComponent.
    cbn [config currentComponent].
    now rewrite !prop_insert_ne by discriminate.
Qed.

(** X28. The statements after the class.  After them the tag is defined;
    a constructor already defined under the tag is kept (the card's class
    replaces nothing), and the card's class is defined only when the tag
    was free.  No other tag is touched.  The list of custom cards is the
    previous one, or the empty one when there was none, with the card's
    entry added at the end. *)
Theorem registration_keeps_earlier_definition (window : Window) :
  let after := registration window in
  customElements after !! tag
  = Some (default WallClockCard (customElements window !! tag))
  /\ (forall other, other <> tag ->
        customElements after !! other = customElements window !! other)
  /\ customCards after
     = Some (default [] (customCards window) ++ [thisCard])
  /\ (forall entries, customCards window = Some entries ->
        forall i entry, entries !! i = Some entry ->
          default [] (customCards after) !! i = Some entry).
Proof.
  cbn zeta. unfold registration. cbn [customElements customCards].
  split; [| split; [| split]].
  - destruct (customElements window !! tag) as [c |] eqn:Htag.
    + exact Htag.
    + apply lookup_insert_eq.
  - intros other Hother.
    destruct (customElements window !! tag); [reflexivity |].
    now apply lookup_insert_ne.
  - reflexivity.
  - intros entries -> i entry Hentry. cbn [default].
    now apply lookup_app_l_Some.
Qed.

Lemma registration_keeps_earlier_definition_witness :
  let after := registration SampleCards.taken in
  customCards SampleCards.taken = Some [thisCard]
  /\ [thisCard] !! 0%nat = Some thisCard
  /\ default [] (customCards after) !! 0%nat = Some thisCard
  /\ customElements after !! tag = Some (Other 0).
Proof.
  intros after.
  assert (customCards SampleCards.taken = Some [thisCard]) as Hcards
    by reflexivity.
  assert ([thisCard] !! 0%nat = Some thisCard) as Hentry by reflexivity.
  destruct (registration_keeps_earlier_definition SampleCards.taken)
    as (Htag & _ & _ & Hkept).
  split; [exact Hcards |]. split; [exact Hentry |]. split.
  - exact (Hkept [thisCard] Hcards 0%nat thisCard Hentry).
  - exact Htag.
Defined.

End ElementProperties.
